(** * RSVPreader: paced word playback with per-document resumable progress

    A shallow embedding of [app.py]: the JSON-backed progress and settings
    stores, the playback thread [WordDisplayThread], the context window and
    the start/stop wiring of [MainWindow], followed by the properties of the
    specification that were checked against them. *)

From Stdlib Require Import ZArith QArith Qround Lia.
From stdpp Require Import base option list gmap strings.

Local Open Scope string_scope.
Local Open Scope list_scope.
Local Open Scope Z_scope.

(** ** Python values, exceptions and results *)

(** The values [json.load] can produce.  A JSON number with a fraction is
    kept as the rational it denotes; objects are dictionaries keyed by
    strings. *)
#[warnings="-register-all"]
Inductive pyval : Type :=
| PNone
| PBool (b : bool)
| PInt (z : Z)
| PFloat (q : Q)
| PStr (s : string)
| PList (l : list pyval)
| PDict (d : gmap string pyval).

(** The exception classes that occur in the modelled code.  [IOError] stands
    for [OSError] and all of its subclasses. *)
Inductive exn : Type :=
| JSONDecodeError
| IOError
| UnicodeDecodeError
| AttributeError
| TypeError
| ZeroDivisionError
| ValueError
| IndexError
| KeyboardInterrupt.

Inductive result (A : Type) : Type :=
| Ok (a : A)
| Raise (e : exn).
Arguments Ok {A} a.
Arguments Raise {A} e.

#[global] Instance result_ret : MRet result := λ A a, Ok a.
#[global] Instance result_bind : MBind result := λ A B f m,
  match m with
  | Ok a => f a
  | Raise e => Raise e
  end.

(** [try: body except classes: handler]; [handler e = None] when the except
    clause does not list the class of [e]. *)
Definition try_except {A} (body : result A) (handler : exn → option (result A)) : result A :=
  match body with
  | Ok a => Ok a
  | Raise e => match handler e with
               | Some r => r
               | None => Raise e
               end
  end.

(** ** The file system *)

(** What a path that exists holds, as far as [open] and [json.load] tell. *)
Inductive file : Type :=
| Unopenable              (* open() raises OSError: a directory, no permission *)
| Undecodable             (* bytes that are not UTF-8: read() raises UnicodeDecodeError *)
| NotJson                 (* text json.load rejects; the empty file is such a text *)
| JsonText (v : pyval).   (* a JSON document; json.load returns v *)

Abbreviation filesystem := (gmap string file).

Definition PROGRESS_JSON : string := "reading_progress.json".
Definition SETTINGS_JSON : string := "app_settings.json".

(** [os.path.exists] *)
Definition os_path_exists (fs : filesystem) (path : string) : bool :=
  match fs !! path with
  | Some _ => true
  | None => false
  end.

(** [with open(path, "r", encoding="utf-8") as f: return json.load(f)] *)
Definition open_r_json_load (fs : filesystem) (path : string) : result pyval :=
  match fs !! path with
  | None => Raise IOError
  | Some Unopenable => Raise IOError
  | Some Undecodable => Raise UnicodeDecodeError
  | Some NotJson => Raise JSONDecodeError
  | Some (JsonText v) => Ok v
  end.

(** Writing a file goes through two states of the file system: [open(path,
    "w")] truncates the file, then [json.dump] fills it and the [with] block
    closes it. *)
Inductive fs_op : Type :=
| OpenW (path : string)
| JsonDump (path : string) (v : pyval).

Definition exec_op (op : fs_op) (fs : filesystem) : result filesystem :=
  match op with
  | OpenW path =>
      match fs !! path with
      | Some Unopenable => Raise IOError
      | _ => Ok (<[path := NotJson]> fs)
      end
  | JsonDump path v => Ok (<[path := JsonText v]> fs)
  end.

Fixpoint exec_ops (ops : list fs_op) (fs : filesystem) : result filesystem :=
  match ops with
  | [] => Ok fs
  | op :: ops' => fs' ← exec_op op fs; exec_ops ops' fs'
  end.

(** The file system a reader finds when the writer is cut off after [n] of
    its operations. *)
Definition interrupted_after (n : nat) (ops : list fs_op) (fs : filesystem) : result filesystem :=
  exec_ops (take n ops) fs.

(** ** Dictionary access on Python values *)

(** [data.get(key, default)]: only a dict has the method. *)
Definition py_get (data : pyval) (key : string) (default : pyval) : result pyval :=
  match data with
  | PDict d => Ok (from_option id default (d !! key))
  | _ => Raise AttributeError
  end.

(** [data[key] = value]: a list wants an integer index, the other values
    support no item assignment at all. *)
Definition py_setitem (data : pyval) (key : string) (value : pyval) : result pyval :=
  match data with
  | PDict d => Ok (PDict (<[key := value]> d))
  | _ => Raise TypeError
  end.

(** ** Progress store *)

(** The except clause [(json.JSONDecodeError, IOError)]. *)
Definition decode_or_io {A} (r : result A) (e : exn) : option (result A) :=
  match e with
  | JSONDecodeError | IOError => Some r
  | _ => None
  end.

Definition load_all_progress (fs : filesystem) : result pyval :=
  if os_path_exists fs PROGRESS_JSON then
    try_except (open_r_json_load fs PROGRESS_JSON) (decode_or_io (Ok (PDict ∅)))
  else Ok (PDict ∅).

Definition save_all_progress_ops (data : pyval) : list fs_op :=
  [OpenW PROGRESS_JSON; JsonDump PROGRESS_JSON data].

Definition save_all_progress (data : pyval) (fs : filesystem) : result filesystem :=
  exec_ops (save_all_progress_ops data) fs.

Definition load_progress (fs : filesystem) (file_path : string) : result pyval :=
  data ← load_all_progress fs;
  py_get data file_path (PInt 0).

Definition save_progress (file_path : string) (index : pyval) (fs : filesystem) : result filesystem :=
  data ← load_all_progress fs;
  data' ← py_setitem data file_path index;
  save_all_progress data' fs.

(** ** Settings store *)

Definition load_app_settings (fs : filesystem) : result pyval :=
  if os_path_exists fs SETTINGS_JSON then
    try_except (open_r_json_load fs SETTINGS_JSON) (decode_or_io (Ok (PDict ∅)))
  else Ok (PDict ∅).

Definition save_app_settings (settings : pyval) (fs : filesystem) : result filesystem :=
  exec_ops [OpenW SETTINGS_JSON; JsonDump SETTINGS_JSON settings] fs.

(** ** Floating point

    A Python [float] is an IEEE 754 binary64.  The code divides two integers
    and multiplies by 100; both operations round the exact result to the
    nearest number with a 53-bit significand, ties to even.  A float is kept
    as the rational it denotes.  The exponent range is not modelled: the
    quotients taken here are ratios of list lengths and of a rate, far from
    overflow and underflow. *)

(** For [n, d > 0], the [k] with [2^k <= n/d < 2^(k+1)]. *)
Definition ilog2_ratio (n d : Z) : Z :=
  let k := Z.log2 n - Z.log2 d in
  if 0 <=? k
  then (if d * 2 ^ k <=? n then k else k - 1)
  else (if d <=? n * 2 ^ (- k) then k else k - 1).

(** The integer nearest to [n/d] for [d > 0], a tie going to the even one. *)
Definition round_half_even (n d : Z) : Z :=
  let q := n / d in
  match 2 * (n mod d) ?= d with
  | Lt => q
  | Gt => q + 1
  | Eq => if Z.even q then q else q + 1
  end.

(** The binary64 nearest to [n/d] for [n, d > 0]. *)
Definition round_binary64_pos (n d : Z) : Q :=
  let e := ilog2_ratio n d - 52 in
  if 0 <=? e
  then inject_Z (round_half_even n (d * 2 ^ e) * 2 ^ e)
  else Qmake (round_half_even (n * 2 ^ (- e)) d) (Z.to_pos (2 ^ (- e))).

Definition round_binary64 (x : Q) : Q :=
  match Qnum x with
  | Z0 => 0%Q
  | Zpos n => round_binary64_pos (Zpos n) (Zpos (Qden x))
  | Zneg n => Qopp (round_binary64_pos (Zpos n) (Zpos (Qden x)))
  end.

(** [a / b] on integers: true division, correctly rounded. *)
Definition py_true_div (a b : Z) : result Q :=
  if b =? 0 then Raise ZeroDivisionError
  else Ok (round_binary64 (Qdiv (inject_Z a) (inject_Z b))).

(** [a / b] where [b] is whatever value the settings held. *)
Definition py_true_div_val (a : Z) (b : pyval) : result Q :=
  match b with
  | PInt z => py_true_div a z
  | PBool t => py_true_div a (if t then 1 else 0)
  | PFloat q => if Qeq_bool q 0 then Raise ZeroDivisionError
                else Ok (round_binary64 (Qdiv (inject_Z a) q))
  | _ => Raise TypeError
  end.

(** [x * n] for a float [x] and an integer [n] that a float holds exactly. *)
Definition py_float_mul (x : Q) (n : Z) : Q :=
  round_binary64 (Qmult x (inject_Z n)).

(** [int(x)]: truncation toward zero. *)
Definition py_int (x : Q) : Z := Z.quot (Qnum x) (Zpos (Qden x)).

(** ** Strings and lists *)

(** [str.isspace] on the code points below 256. *)
Definition py_isspace (c : Ascii.ascii) : bool :=
  let n := Ascii.nat_of_ascii c in
  ((9 <=? n)%nat && (n <=? 13)%nat) || ((28 <=? n)%nat && (n <=? 32)%nat)
  || (n =? 133)%nat || (n =? 160)%nat.

(** [text.split()]: the maximal runs of characters that are not whitespace. *)
Fixpoint split_from (word : string) (s : string) : list string :=
  match s with
  | EmptyString => match word with
                   | EmptyString => []
                   | _ => [word]
                   end
  | String c s' =>
      if py_isspace c
      then match word with
           | EmptyString => split_from "" s'
           | _ => word :: split_from "" s'
           end
      else split_from (word +:+ String c "") s'
  end.

Definition split (text : string) : list string := split_from "" text.

(** [len(l)] *)
Definition len {A} (l : list A) : Z := Z.of_nat (length l).

(** [l[i]], a negative index counting from the end. *)
Definition py_index {A} (l : list A) (i : Z) : result A :=
  let j := if 0 <=? i then i else len l + i in
  if 0 <=? j
  then match l !! Z.to_nat j with
       | Some x => Ok x
       | None => Raise IndexError
       end
  else Raise IndexError.

(** [range(a, b)] as the list it iterates over; [a] must be an integer (a
    bool counts as one). *)
Definition py_range (a : pyval) (b : Z) : result (list Z) :=
  match a with
  | PInt z => Ok (seqZ z (b - z))
  | PBool t => let z := if t then 1 else 0 in Ok (seqZ z (b - z))
  | _ => Raise TypeError
  end.

(** [not self.text] *)
Definition str_is_empty (s : string) : bool :=
  match s with
  | EmptyString => true
  | _ => false
  end.

(** ** The playback thread *)

Record WordDisplayThread : Type := mkThread {
  file_path : string;
  text : string;
  words_per_minute : pyval;
  running : bool;
  current_index : Z
}.

(** [WordDisplayThread.__init__] *)
Definition WordDisplayThread_init (path txt : string) (wpm : pyval) : WordDisplayThread :=
  {| file_path := path; text := txt; words_per_minute := wpm;
     running := true; current_index := 0 |}.

(** [WordDisplayThread.stop] *)
Definition stop (self : WordDisplayThread) : WordDisplayThread :=
  {| file_path := file_path self; text := text self;
     words_per_minute := words_per_minute self;
     running := false; current_index := current_index self |}.

Definition set_current_index (i : Z) (self : WordDisplayThread) : WordDisplayThread :=
  {| file_path := file_path self; text := text self;
     words_per_minute := words_per_minute self;
     running := running self; current_index := i |}.

(** What the thread does to the world, in the order it does it. *)
Inductive effect : Type :=
| WordSignal (word : string)            (* word_signal.emit *)
| ProgressSignal (progress : Z)         (* progress_signal.emit *)
| Sleep (delay : Q)                     (* time.sleep *)
| Saved (path : string) (index : Z).    (* a save_progress that returned *)

Record state : Type := mkState {
  fs : filesystem;
  self : WordDisplayThread;
  effects : list effect
}.

(** State passing with exceptions: the state reached is kept when a
    computation raises, which is what an except clause sees. *)
Definition M (A : Type) : Type := state → state * result A.

#[global] Instance M_ret : MRet M := λ A a st, (st, Ok a).
#[global] Instance M_bind : MBind M := λ A B f m st,
  match m st with
  | (st', Ok a) => f a st'
  | (st', Raise e) => (st', Raise e)
  end.

Definition raise {A} (e : exn) : M A := λ st, (st, Raise e).
Definition lift {A} (r : result A) : M A := λ st, (st, r).
Definition get_self : M WordDisplayThread := λ st, (st, Ok (self st)).
Definition update_self (f : WordDisplayThread → WordDisplayThread) : M unit :=
  λ st, ({| fs := fs st; self := f (self st); effects := effects st |}, Ok tt).
Definition emit (ev : effect) : M unit :=
  λ st, ({| fs := fs st; self := self st; effects := effects st ++ [ev] |}, Ok tt).

Definition try_except_M {A} (body : M A) (handler : exn → option (M A)) : M A :=
  λ st, match body st with
        | (st', Ok a) => (st', Ok a)
        | (st', Raise e) => match handler e with
                            | Some h => h st'
                            | None => (st', Raise e)
                            end
        end.

(** The store seen from the thread. *)
Definition load_progress_M (path : string) : M pyval :=
  λ st, (st, load_progress (fs st) path).

Definition save_progress_M (path : string) (index : Z) : M unit :=
  λ st, match save_progress path (PInt index) (fs st) with
        | Ok fs' => ({| fs := fs'; self := self st;
                        effects := effects st ++ [Saved path index] |}, Ok tt)
        | Raise e => (st, Raise e)
        end.

(** [time.sleep(delay)] refuses a negative length. *)
Definition time_sleep (delay : Q) : M unit :=
  if Qle_bool 0 delay then emit (Sleep delay) else raise ValueError.

(** *** What happens around the thread

    The GUI thread may call [stop] while the worker runs, and a
    [KeyboardInterrupt] may arrive between two statements of the loop.  A
    schedule fixes both: [stop_after = Some n] has [stop] called once the
    worker has completed [n] iterations, and [interrupt_at = Some (j, pt)]
    delivers the interrupt at point [pt] of iteration [j] (counted from 0;
    the top of the iteration after the last one is the exit of the loop). *)
Inductive point : Type :=
| AtLoopTop        (* in the for header or the test of self.running *)
| AfterCursor      (* after self.current_index = i *)
| AfterWord        (* after word_signal.emit *)
| AfterProgress    (* after progress_signal.emit *)
| AfterSleep.      (* after time.sleep, before save_progress *)

#[global] Instance point_eq_dec : EqDecision point.
Proof. solve_decision. Defined.

Record schedule : Type := mkSchedule {
  stop_after : option nat;
  interrupt_at : option (nat * point)
}.

(** No [stop], no interrupt. *)
Definition undisturbed : schedule :=
  {| stop_after := None; interrupt_at := None |}.

Definition stop_after_iterations (n : nat) : schedule :=
  {| stop_after := Some n; interrupt_at := None |}.

Definition deliver (E : schedule) (j : nat) (pt : point) : M unit :=
  if decide (interrupt_at E = Some (j, pt)) then raise KeyboardInterrupt else mret tt.

Definition gui_thread (E : schedule) (j : nat) : M unit :=
  if decide (stop_after E = Some j) then update_self stop else mret tt.

(** The body of [for i in range(start_index, total_words)], over the indices
    still to visit; [j] counts the iterations begun. *)
Fixpoint for_loop (E : schedule) (words : list string) (total_words : Z) (delay : Q)
    (j : nat) (indices : list Z) : M unit :=
  gui_thread E j;;
  deliver E j AtLoopTop;;
  match indices with
  | [] => mret tt
  | i :: rest =>
      me ← get_self;
      if negb (running me) then mret tt
      else
        update_self (set_current_index i);;
        deliver E j AfterCursor;;
        word ← lift (py_index words i);
        emit (WordSignal word);;
        deliver E j AfterWord;;
        ratio ← lift (py_true_div (i + 1) total_words);
        let progress := py_int (py_float_mul ratio 100) in
        emit (ProgressSignal progress);;
        deliver E j AfterProgress;;
        time_sleep delay;;
        deliver E j AfterSleep;;
        save_progress_M (file_path me) (i + 1);;
        for_loop E words total_words delay (S j) rest
  end.

(** [WordDisplayThread.run] *)
Definition run (E : schedule) : M unit :=
  me ← get_self;
  let words := split (text me) in
  start_index ← load_progress_M (file_path me);
  delay ← lift (py_true_div_val 60 (words_per_minute me));
  let total_words := len words in
  try_except_M
    (indices ← lift (py_range start_index total_words);
     for_loop E words total_words delay 0 indices)
    (λ e, match e with
          | KeyboardInterrupt =>
              Some (me' ← get_self; save_progress_M (file_path me') (current_index me'))
          | _ => None
          end).

(** A thread created for [path] and [txt] and run to its end on the file
    system [fs0]. *)
Definition session (E : schedule) (path txt : string) (wpm : pyval) (fs0 : filesystem) : state * result unit :=
  run E {| fs := fs0; self := WordDisplayThread_init path txt wpm; effects := [] |}.

Definition word_signals (evs : list effect) : list string :=
  omap (λ ev, match ev with WordSignal w => Some w | _ => None end) evs.

Definition progress_signals (evs : list effect) : list Z :=
  omap (λ ev, match ev with ProgressSignal p => Some p | _ => None end) evs.

Definition saved_indices (path : string) (evs : list effect) : list Z :=
  omap (λ ev, match ev with
              | Saved p i => if decide (p = path) then Some i else None
              | _ => None
              end) evs.

(** ** The context window *)

Definition dquote : string := String (Ascii.ascii_of_nat 34) "".

(** The markup put around the current word. *)
Definition highlight_current (word : string) : string :=
  "<span style=" +:+ dquote +:+ "color: red; font-weight: bold;" +:+ dquote +:+ ">"
  +:+ word +:+ "</span>".

(** The loop of [update_context], appending to [context]. *)
Fixpoint context_loop (words : list string) (current_index : Z) (indices : list Z)
    (context : list string) : result (list string) :=
  match indices with
  | [] => Ok context
  | i :: rest =>
      word ← py_index words i;
      context_loop words current_index rest
        (context ++ [if bool_decide (i = current_index) then highlight_current word else word])
  end.

(** The list [context] that [update_context] has built when its loop ends. *)
Definition context_items (txt : string) (current_index : Z) : result (list string) :=
  let words := split txt in
  let start := Z.max 0 (current_index - 60) in
  let end_ := Z.min (len words) (current_index + 61) in
  context_loop words current_index (seqZ start (end_ - start)) [].

(** [" ".join(context)] *)
Fixpoint join (sep : string) (parts : list string) : string :=
  match parts with
  | [] => ""
  | [p] => p
  | p :: rest => p +:+ sep +:+ join sep rest
  end.

(** [ContextWindow.update_context]: the HTML handed to the text browser. *)
Definition update_context (txt : string) (current_index : Z) : result string :=
  context ← context_items txt current_index;
  mret (join " " context).

(** ** The main window *)

(** The fields of [MainWindow] that playback and settings touch.  The path
    of the loaded book is [""] while none is loaded: the code only tests it
    for truth or hands it to the thread. *)
Record MainWindow : Type := mkWindow {
  win_words_per_minute : pyval;
  win_font_size : pyval;
  win_text : string;
  win_thread : option WordDisplayThread;
  win_current_file_path : string;
  win_word_label : string
}.

(** [MainWindow.load_settings_from_file] *)
Definition load_settings_from_file (fs : filesystem) (win : MainWindow) : result MainWindow :=
  settings ← load_app_settings fs;
  wpm ← py_get settings "words_per_minute" (PInt 300);
  font ← py_get settings "font_size" (PInt 16);
  mret {| win_words_per_minute := wpm; win_font_size := font;
          win_text := win_text win; win_thread := win_thread win;
          win_current_file_path := win_current_file_path win;
          win_word_label := win_word_label win |}.

(** [MainWindow.__init__], up to [init_ui]. *)
Definition MainWindow_init (fs : filesystem) : result MainWindow :=
  win ← load_settings_from_file fs
         {| win_words_per_minute := PInt 300; win_font_size := PInt 16;
            win_text := ""; win_thread := None; win_current_file_path := "";
            win_word_label := "" |};
  mret {| win_words_per_minute := win_words_per_minute win;
          win_font_size := win_font_size win;
          win_text := ""; win_thread := None; win_current_file_path := "";
          win_word_label := "Load an EPUB file to start" |}.

(** [MainWindow.stop_display]: the running thread, if any, is told to stop
    and waited for. *)
Definition stop_display (win : MainWindow) : MainWindow :=
  {| win_words_per_minute := win_words_per_minute win;
     win_font_size := win_font_size win;
     win_text := win_text win; win_thread := stop <$> win_thread win;
     win_current_file_path := win_current_file_path win;
     win_word_label := win_word_label win |}.

(** [MainWindow.start_display]: the window afterwards, and the thread this
    call has started, if it started one. *)
Definition start_display (win : MainWindow) : MainWindow * option WordDisplayThread :=
  if str_is_empty (win_text win) then
    ({| win_words_per_minute := win_words_per_minute win;
        win_font_size := win_font_size win;
        win_text := win_text win; win_thread := win_thread win;
        win_current_file_path := win_current_file_path win;
        win_word_label := "Please load an EPUB file first." |}, None)
  else
    let win' := stop_display win in
    let thread := WordDisplayThread_init (win_current_file_path win') (win_text win')
                    (win_words_per_minute win') in
    ({| win_words_per_minute := win_words_per_minute win';
        win_font_size := win_font_size win';
        win_text := win_text win'; win_thread := Some thread;
        win_current_file_path := win_current_file_path win';
        win_word_label := win_word_label win' |}, Some thread).

From stdpp Require pretty.

(** ** Slices of a string *)

(** [word[:n]] *)
Fixpoint str_take (n : nat) (s : string) : string :=
  match n, s with
  | S n', String c s' => String c (str_take n' s')
  | _, _ => ""
  end.

(** [word[n:]] *)
Fixpoint str_drop (n : nat) (s : string) : string :=
  match n, s with
  | S n', String c s' => str_drop n' s'
  | _, _ => s
  end.

(** [word[n]], the one-character string at index [n >= 0]. *)
Definition str_at (s : string) (n : nat) : result string :=
  match String.get n s with
  | Some c => Ok (String c "")
  | None => Raise IndexError
  end.

(** ** Showing a word *)

(** [MainWindow.highlight_middle_letter] *)
Definition highlight_middle_letter (word : string) : result string :=
  if (String.length word <=? 1)%nat then Ok word
  else
    let middle_index := (String.length word / 2)%nat in
    letter ← str_at word middle_index;
    mret (str_take middle_index word
          +:+ ("<span style=" +:+ dquote +:+ "color:red;" +:+ dquote +:+ ">"
               +:+ letter +:+ "</span>")
          +:+ str_drop (middle_index + 1) word).

(** [MainWindow.update_word_label]: the slot of [word_signal]. *)
Definition update_word_label (word : string) (win : MainWindow) : result MainWindow :=
  highlighted_word ← highlight_middle_letter word;
  mret {| win_words_per_minute := win_words_per_minute win;
          win_font_size := win_font_size win;
          win_text := win_text win; win_thread := win_thread win;
          win_current_file_path := win_current_file_path win;
          win_word_label :=
            "<html><body style=" +:+ dquote +:+ "text-align:center;" +:+ dquote +:+ ">"
            +:+ highlighted_word +:+ "</body></html>" |}.

(** ** Reading an EPUB

    [epub.read_epub] and the HTML parser belong to libraries.  A book is the
    list of items [book.get_items()] yields; the text the parser finds in an
    item's content is a parameter. *)

(** The item types [ebooklib] tells apart, as far as the code asks. *)
Inductive item_type : Type :=
| ITEM_DOCUMENT
| ITEM_IMAGE
| ITEM_OTHER.

#[global] Instance item_type_eq_dec : EqDecision item_type.
Proof. solve_decision. Defined.

Record epub_item : Type := mkItem {
  get_type : item_type;
  get_name : string;
  get_content : string
}.

(** [extract_text_from_epub], on the items of the book; [html_text content]
    stands for [BeautifulSoup(content, 'html.parser').get_text()]. *)
Definition extract_text_from_epub (html_text : string → string) (book : list epub_item) : string :=
  join " " (html_text <$> (get_content <$> filter (λ item, get_type item = ITEM_DOCUMENT) book)).

(** [str.lower] on the code points below 256. *)
Definition py_lower_char (c : Ascii.ascii) : Ascii.ascii :=
  let n := Ascii.nat_of_ascii c in
  if ((65 <=? n)%nat && (n <=? 90)%nat)
     || ((192 <=? n)%nat && (n <=? 222)%nat && negb (n =? 215)%nat)
  then Ascii.ascii_of_nat (n + 32)
  else c.

Fixpoint py_lower (s : string) : string :=
  match s with
  | EmptyString => ""
  | String c s' => String (py_lower_char c) (py_lower s')
  end.

(** [needle in hay] *)
Fixpoint str_contains (needle hay : string) : bool :=
  String.prefix needle hay
  || match hay with
     | EmptyString => false
     | String _ hay' => str_contains needle hay'
     end.

(** The test of [extract_cover_image_from_epub] on one item. *)
Definition is_cover (item : epub_item) : bool :=
  bool_decide (get_type item = ITEM_IMAGE) && str_contains "cover" (py_lower (get_name item)).

(** [extract_cover_image_from_epub], on the items of the book. *)
Fixpoint extract_cover_image_from_epub (book : list epub_item) : option string :=
  match book with
  | [] => None
  | item :: rest =>
      if is_cover item then Some (get_content item)
      else extract_cover_image_from_epub rest
  end.


(** ** The widgets

    What the code has put into the widgets it updates; [progress_bar] is
    the value last handed to [progress_bar.setValue]. *)

Inductive cover_view : Type :=
| CoverText (s : string)        (* cover_label.setText *)
| CoverPixmap (data : string).  (* cover_label.setPixmap, of the image data *)

Record Widgets : Type := mkWidgets {
  speed_value : string;
  font_value : string;
  word_label_style : string;
  progress_bar : Z;
  cover_label : cover_view
}.

(** ** Settings in the main window *)

(** [MainWindow.save_current_settings] *)
Definition save_current_settings (win : MainWindow) (fs : filesystem) : result filesystem :=
  let settings := PDict (<["font_size" := win_font_size win]>
                           {[ "words_per_minute" := win_words_per_minute win ]}) in
  save_app_settings settings fs.

(** [MainWindow.update_speed]: the slot of the speed slider.  The window
    and the label are updated before the settings are saved, so they stay
    updated when the save raises. *)
Definition update_speed (value : Z) (win : MainWindow) (ui : Widgets) (fs : filesystem)
    : MainWindow * Widgets * result filesystem :=
  let win' := {| win_words_per_minute := PInt value;
                 win_font_size := win_font_size win;
                 win_text := win_text win; win_thread := win_thread win;
                 win_current_file_path := win_current_file_path win;
                 win_word_label := win_word_label win |} in
  let ui' := {| speed_value := pretty.pretty value; font_value := font_value ui;
                word_label_style := word_label_style ui;
                progress_bar := progress_bar ui; cover_label := cover_label ui |} in
  (win', ui', save_current_settings win' fs).

(** [MainWindow.update_font_size]: the slot of the font slider. *)
Definition update_font_size (value : Z) (win : MainWindow) (ui : Widgets) (fs : filesystem)
    : MainWindow * Widgets * result filesystem :=
  let win' := {| win_words_per_minute := win_words_per_minute win;
                 win_font_size := PInt value;
                 win_text := win_text win; win_thread := win_thread win;
                 win_current_file_path := win_current_file_path win;
                 win_word_label := win_word_label win |} in
  let ui' := {| speed_value := speed_value ui; font_value := pretty.pretty value;
                word_label_style :=
                  "font-size: " +:+ pretty.pretty value
                  +:+ "px; background-color: rgb(235, 222, 200);";
                progress_bar := progress_bar ui; cover_label := cover_label ui |} in
  (win', ui', save_current_settings win' fs).

(** ** Progress in the main window *)

(** [MainWindow.update_progress]: the slot of [progress_signal]. *)
Definition update_progress (value : Z) (ui : Widgets) : Widgets :=
  {| speed_value := speed_value ui; font_value := font_value ui;
     word_label_style := word_label_style ui;
     progress_bar := value; cover_label := cover_label ui |}.

(** [MainWindow.reset_progress] *)
Definition reset_progress (win : MainWindow) (ui : Widgets) (fs : filesystem)
    : result (MainWindow * Widgets * filesystem) :=
  if str_is_empty (win_current_file_path win) then mret (win, ui, fs)
  else
    fs' ← save_progress (win_current_file_path win) (PInt 0) fs;
    mret ({| win_words_per_minute := win_words_per_minute win;
             win_font_size := win_font_size win;
             win_text := win_text win; win_thread := win_thread win;
             win_current_file_path := win_current_file_path win;
             win_word_label := "Progress has been reset to the start." |},
          update_progress 0 ui, fs').

(** [start_index / total_words] for whatever the store held. *)
Definition py_val_true_div (a : pyval) (b : Z) : result Q :=
  match a with
  | PInt z => py_true_div z b
  | PBool t => py_true_div (if t then 1 else 0) b
  | PFloat q => if b =? 0 then Raise ZeroDivisionError
                else Ok (round_binary64 (Qdiv q (inject_Z b)))
  | _ => Raise TypeError
  end.

(** [MainWindow.load_file], for the path the file dialog returned ([""]
    when it was cancelled) and the items of the book at that path.  The
    window and the cover are set before the store is read, so they stay set
    when reading the progress raises. *)
Definition load_file (html_text : string → string) (file_path : string)
    (book : list epub_item) (win : MainWindow) (ui : Widgets) (fs : filesystem)
    : MainWindow * Widgets * result unit :=
  if str_is_empty file_path then (win, ui, Ok tt)
  else
    let txt := extract_text_from_epub html_text book in
    let win' := {| win_words_per_minute := win_words_per_minute win;
                   win_font_size := win_font_size win;
                   win_text := txt; win_thread := win_thread win;
                   win_current_file_path := file_path;
                   win_word_label := "File loaded. Ready to start." |} in
    let cover := match extract_cover_image_from_epub book with
                 | Some data => if str_is_empty data then CoverText "No cover found."
                                else CoverPixmap data
                 | None => CoverText "No cover found."
                 end in
    let ui' := {| speed_value := speed_value ui; font_value := font_value ui;
                  word_label_style := word_label_style ui;
                  progress_bar := progress_bar ui; cover_label := cover |} in
    let total_words := len (split txt) in
    match
      start_index ← load_progress fs file_path;
      if 0 <? total_words
      then ratio ← py_val_true_div start_index total_words;
           mret (py_int (py_float_mul ratio 100))
      else mret 0
    with
    | Ok progress_value => (win', update_progress progress_value ui', Ok tt)
    | Raise e => (win', ui', Raise e)
    end.

(** ** The context of the running thread *)

(** [MainWindow.show_context]: the HTML of the dialog it opens, if it opens
    one; the window holds the thread object, so [win_thread] is the thread
    as the worker has left it. *)
Definition show_context (win : MainWindow) : option (result string) :=
  match win_thread win with
  | Some thread =>
      if str_is_empty (win_text win) then None
      else Some (update_context (win_text win) (current_index thread))
  | None => None
  end.

(** [MainWindow.closeEvent] *)
Definition closeEvent (win : MainWindow) : MainWindow := stop_display win.

(** * Vocabulary of the properties *)

(** The progress store answers with the table [tbl] and can be written: the
    progress file holds the JSON object [tbl], or it is missing or holds no
    JSON and [tbl] is empty. *)
Definition table_of (fs : filesystem) (tbl : gmap string pyval) : Prop :=
  match fs !! PROGRESS_JSON with
  | Some (JsonText (PDict t)) => t = tbl
  | None | Some NotJson => tbl = ∅
  | _ => False
  end.

(** The store is well formed and [get(d)] is the index [k]. *)
Definition stored_progress (fs : filesystem) (d : string) (k : Z) : Prop :=
  ∃ tbl, table_of fs tbl ∧ from_option id (PInt 0) (tbl !! d) = PInt k.

(** The percentage the loop emits at index [i] of [total] words. *)
Definition progress_percent (i total : Z) : Z :=
  py_int (py_float_mul (round_binary64 (Qdiv (inject_Z (i + 1)) (inject_Z total))) 100).

(** The effects of one complete iteration at index [i]. *)
Definition iteration_effects (words : list string) (delay : Q) (d : string) (i : Z) : list effect :=
  [WordSignal (default "" (words !! Z.to_nat i));
   ProgressSignal (progress_percent i (len words));
   Sleep delay;
   Saved d (i + 1)].

Definition loop_effects (words : list string) (delay : Q) (d : string) (indices : list Z) : list effect :=
  flat_map (iteration_effects words delay d) indices.

(** How many iterations a loop over [m] indices completes when it begins
    with iteration number [j] and no interrupt arrives. *)
Definition iterations_done (E : schedule) (j m : nat) : nat :=
  match stop_after E with
  | None => m
  | Some n => m `min` (n - j)
  end.

(** The file system after [c] iterations that began at index [i]. *)
Definition fs_after (fs0 : filesystem) (tbl : gmap string pyval) (d : string) (i : Z)
    (c : nat) : filesystem :=
  match c with
  | O => fs0
  | S _ => <[PROGRESS_JSON := JsonText (PDict (<[d := PInt (i + Z.of_nat c)]> tbl))]> fs0
  end.

(** The delay [run] computes from the rate. *)
Definition delay_of (wpm : pyval) : Q :=
  match py_true_div_val 60 wpm with
  | Ok q => q
  | Raise _ => 0%Q
  end.


(** The percentage as the specification words it: [(i+1)/N*100] rounded to
    the nearest integer. *)
Definition spec_round_percent (i total : Z) : Z :=
  round_half_even ((i + 1) * 100) total.

(** A store with one document, ["book"], at index [k]. *)
Definition fs_book (k : Z) : filesystem :=
  {[ PROGRESS_JSON := JsonText (PDict {[ "book" := PInt k ]}) ]}.

(** [save_progress] cut off when its write has performed [n] operations on
    the file system. *)
Definition save_progress_interrupted (n : nat) (file_path : string) (index : pyval)
    (fs : filesystem) : result filesystem :=
  data ← load_all_progress fs;
  data' ← py_setitem data file_path index;
  interrupted_after n (save_all_progress_ops data') fs.

(** A store with one document, ["a"], at index 1. *)
Definition fs_old : filesystem :=
  {[ PROGRESS_JSON := JsonText (PDict {[ "a" := PInt 1 ]}) ]}.


(** Nothing in the window changes when [start_display] finds no text, apart
    from the label. *)
Definition same_session_state (win win' : MainWindow) : Prop :=
  win_thread win' = win_thread win
  ∧ win_text win' = win_text win
  ∧ win_current_file_path win' = win_current_file_path win
  ∧ win_words_per_minute win' = win_words_per_minute win
  ∧ win_font_size win' = win_font_size win.

(** A window whose loaded book holds white space only. *)
Definition win_blank : MainWindow :=
  {| win_words_per_minute := PInt 300; win_font_size := PInt 16;
     win_text := " "; win_thread := None; win_current_file_path := "book";
     win_word_label := "File loaded. Ready to start." |}.


(** The window before its settings are loaded. *)
Definition win_default : MainWindow :=
  {| win_words_per_minute := PInt 300; win_font_size := PInt 16;
     win_text := ""; win_thread := None; win_current_file_path := "";
     win_word_label := "" |}.

(** The settings store answers with the table [tbl]: the settings file holds
    the JSON object [tbl], or it is missing, cannot be opened or holds no
    JSON and [tbl] is empty. *)
Definition settings_of (fs : filesystem) (tbl : gmap string pyval) : Prop :=
  match fs !! SETTINGS_JSON with
  | Some (JsonText (PDict t)) => t = tbl
  | None | Some NotJson | Some Unopenable => tbl = ∅
  | _ => False
  end.

(** A token: a string that is not empty and holds no white space. *)
Definition no_space (s : string) : Prop :=
  Forall (λ c, py_isspace c = false) (String.list_ascii_of_string s).

Definition is_token (s : string) : Prop := s ≠ "" ∧ no_space s.

(** The markup [highlight_middle_letter] puts around a letter. *)
Definition red_letter (letter : string) : string :=
  "<span style=" +:+ dquote +:+ "color:red;" +:+ dquote +:+ ">" +:+ letter +:+ "</span>".

(** The widgets of a window that has just been built. *)
Definition ui_default : Widgets :=
  {| speed_value := "300"; font_value := "16";
     word_label_style := "font-size: 16px; background-color: rgb(235, 222, 200);";
     progress_bar := 0; cover_label := CoverText "Cover not found" |}.

(** The state after [m] complete iterations that began at index [i] on the
    table [tbl]. *)
Definition after_iterations (words : list string) (delay : Q) (st : state)
    (tbl : gmap string pyval) (i : Z) (m : nat) : state :=
  match m with
  | O => st
  | S _ =>
      {| fs := fs_after (fs st) tbl (file_path (self st)) i m;
         self := set_current_index (i + Z.of_nat m - 1) (self st);
         effects := effects st
                    ++ loop_effects words delay (file_path (self st)) (seqZ i (Z.of_nat m)) |}
  end.

(** The state in which a fresh thread starts to run. *)
Definition start_state (path txt : string) (wpm : pyval) (fs0 : filesystem) : state :=
  {| fs := fs0; self := WordDisplayThread_init path txt wpm; effects := [] |}.

(** The except clause of [run], applied to what the loop has returned. *)
Definition after_loop (r : state * result unit) : state * result unit :=
  match r with
  | (st', Raise KeyboardInterrupt) =>
      save_progress_M (file_path (self st')) (current_index (self st')) st'
  | _ => r
  end.

(** The window once it holds the thread [thread]. *)
Definition with_thread (win : MainWindow) (thread : WordDisplayThread) : MainWindow :=
  {| win_words_per_minute := win_words_per_minute win;
     win_font_size := win_font_size win;
     win_text := win_text win; win_thread := Some thread;
     win_current_file_path := win_current_file_path win;
     win_word_label := win_word_label win |}.

(** A window with a book of three words loaded. *)
Definition win_loaded : MainWindow :=
  {| win_words_per_minute := PInt 300; win_font_size := PInt 16;
     win_text := "alpha beta gamma"; win_thread := None;
     win_current_file_path := "book";
     win_word_label := "File loaded. Ready to start." |}.

(** A book of two chapters and a cover image. *)
Definition book_demo : list epub_item :=
  [ {| get_type := ITEM_DOCUMENT; get_name := "ch1.xhtml"; get_content := "alpha beta" |};
    {| get_type := ITEM_IMAGE; get_name := "Cover.jpg"; get_content := "JPEG" |};
    {| get_type := ITEM_DOCUMENT; get_name := "ch2.xhtml"; get_content := "gamma" |} ].

(** How many effects of its iteration the loop has performed when it
    reaches a point. *)
Definition point_depth (pt : point) : nat :=
  match pt with
  | AtLoopTop | AfterCursor => 0
  | AfterWord => 1
  | AfterProgress => 2
  | AfterSleep => 3
  end.

(** The words shown when an interrupt arrives at point [pt] of iteration
    [j]. *)
Definition words_shown (pt : point) (j : nat) : nat :=
  match pt with
  | AtLoopTop | AfterCursor => j
  | _ => S j
  end.

(** The cursor the handler finds, for a session that began at index [k]. *)
Definition index_saved (pt : point) (k : Z) (j : nat) : Z :=
  match pt, j with
  | AtLoopTop, O => 0
  | AtLoopTop, S j' => k + Z.of_nat j'
  | _, _ => k + Z.of_nat j
  end.

(** An interrupt at point [pt] of iteration [j], and no [stop]. *)
Definition interrupt_only (j : nat) (pt : point) : schedule :=
  {| stop_after := None; interrupt_at := Some (j, pt) |}.

(** * Properties *)

(** ** The progress store on a well-formed table *)

Lemma load_all_progress_table fs tbl :
  table_of fs tbl → load_all_progress fs = Ok (PDict tbl).
Proof.
  unfold table_of, load_all_progress, os_path_exists, open_r_json_load.
  destruct (fs !! PROGRESS_JSON) as [[| | |[]]|]; cbn; intros H; by subst.
Qed.

Lemma load_progress_table fs tbl d :
  table_of fs tbl → load_progress fs d = Ok (from_option id (PInt 0) (tbl !! d)).
Proof.
  intros H. unfold load_progress. rewrite (load_all_progress_table _ _ H).
  reflexivity.
Qed.

Lemma load_progress_stored fs d k :
  stored_progress fs d k → load_progress fs d = Ok (PInt k).
Proof.
  intros (tbl & Ht & Hk). rewrite (load_progress_table _ _ _ Ht), Hk. reflexivity.
Qed.

Lemma save_progress_table fs tbl d v :
  table_of fs tbl →
  save_progress d v fs = Ok (<[PROGRESS_JSON := JsonText (PDict (<[d := v]> tbl))]> fs).
Proof.
  intros H. unfold save_progress. rewrite (load_all_progress_table _ _ H).
  cbn. unfold table_of in H.
  destruct (fs !! PROGRESS_JSON) as [[| | |[]]|]; try done; cbn;
    f_equal; apply insert_insert_eq.
Qed.

Lemma table_of_insert fs tbl v :
  table_of (<[PROGRESS_JSON := JsonText (PDict v)]> fs) tbl ↔ tbl = v.
Proof.
  unfold table_of. rewrite lookup_insert_eq. split; congruence.
Qed.

Lemma stored_progress_insert fs tbl d k :
  stored_progress (<[PROGRESS_JSON := JsonText (PDict (<[d := PInt k]> tbl))]> fs) d k.
Proof.
  eexists. split; [by apply table_of_insert|]. by rewrite lookup_insert_eq.
Qed.

Lemma stored_progress_unique fs d k k' :
  stored_progress fs d k → stored_progress fs d k' → k = k'.
Proof.
  intros Hk Hk'. apply load_progress_stored in Hk, Hk'. congruence.
Qed.

(** ** The loop of [run] *)

Lemma deliver_none E j pt : interrupt_at E = None → deliver E j pt = mret tt.
Proof. intros H. unfold deliver. rewrite H. reflexivity. Qed.

Lemma gui_thread_idle E j : stop_after E ≠ Some j → gui_thread E j = mret tt.
Proof. intros H. unfold gui_thread. destruct (decide _); [done | reflexivity]. Qed.

Lemma gui_thread_stops E j : stop_after E = Some j → gui_thread E j = update_self stop.
Proof. intros H. unfold gui_thread. destruct (decide _); [reflexivity | done]. Qed.

Lemma for_loop_nil E words total delay j st :
  interrupt_at E = None →
  ∃ st', for_loop E words total delay j [] st = (st', Ok tt)
         ∧ fs st' = fs st ∧ effects st' = effects st.
Proof.
  intros Hi. cbn. rewrite (deliver_none _ _ _ Hi).
  unfold gui_thread. destruct (decide _); cbn; eauto.
Qed.

Lemma for_loop_stopped E words total delay j indices st :
  interrupt_at E = None → stop_after E = Some j →
  ∃ st', for_loop E words total delay j indices st = (st', Ok tt)
         ∧ fs st' = fs st ∧ effects st' = effects st.
Proof.
  intros Hi Hs. destruct indices as [|i rest]; [by apply for_loop_nil|].
  cbn [for_loop]. rewrite !(deliver_none _ _ _ Hi), (gui_thread_stops _ _ Hs).
  unfold mbind, M_bind, mret, M_ret, get_self, update_self. cbn. eauto.
Qed.

Lemma for_loop_step E words delay j i rest st w tbl :
  interrupt_at E = None → stop_after E ≠ Some j →
  running (self st) = true →
  0 <= i → words !! Z.to_nat i = Some w →
  Qle_bool 0 delay = true →
  table_of (fs st) tbl →
  for_loop E words (len words) delay j (i :: rest) st
  = for_loop E words (len words) delay (S j) rest
      {| fs := <[PROGRESS_JSON :=
                   JsonText (PDict (<[file_path (self st) := PInt (i + 1)]> tbl))]> (fs st);
         self := set_current_index i (self st);
         effects := effects st ++ iteration_effects words delay (file_path (self st)) i |}.
Proof.
  intros Hi Hs Hr H0 Hw Hd Ht.
  assert (Hlen : (len words =? 0) = false).
  { apply Z.eqb_neq. unfold len. apply lookup_lt_Some in Hw. lia. }
  cbn [for_loop].
  rewrite (gui_thread_idle _ _ Hs), !(deliver_none _ _ _ Hi).
  unfold mbind, M_bind, mret, M_ret, get_self, update_self, lift, emit.
  cbn. rewrite Hr. cbn.
  unfold py_index. apply Z.leb_le in H0 as H0'. rewrite H0', Hw. cbn.
  unfold py_true_div. rewrite Hlen. cbn.
  unfold time_sleep. rewrite Hd. unfold emit. cbn.
  unfold save_progress_M. cbn.
  rewrite (save_progress_table _ _ _ _ Ht). cbn.
  unfold iteration_effects. rewrite Hw. cbn.
  rewrite ?H0'. unfold progress_percent. rewrite <- !app_assoc. reflexivity.
Qed.

Lemma loop_effects_cons words delay d i rest :
  loop_effects words delay d (i :: rest)
  = iteration_effects words delay d i ++ loop_effects words delay d rest.
Proof. reflexivity. Qed.

Lemma seqZ_succ i (m : nat) :
  seqZ i (Z.of_nat (S m)) = i :: seqZ (i + 1) (Z.of_nat m).
Proof.
  rewrite seqZ_cons by lia. f_equal. f_equal; lia.
Qed.

Section Loop.
Context (E : schedule) (words : list string) (delay : Q).
Hypothesis no_interrupt : interrupt_at E = None.
Hypothesis delay_ok : Qle_bool 0 delay = true.

(** Without an interrupt the loop returns, having completed
    [iterations_done] iterations and left their last checkpoint in the
    store. *)
Lemma for_loop_runs (m : nat) :
  ∀ (j : nat) (i : Z) (st : state) (tbl : gmap string pyval),
    (∀ n, stop_after E = Some n → (j <= n)%nat) →
    running (self st) = true →
    0 <= i → (m = 0%nat ∨ i + Z.of_nat m <= len words) →
    table_of (fs st) tbl →
    let c := iterations_done E j m in
    ∃ st',
      for_loop E words (len words) delay j (seqZ i (Z.of_nat m)) st = (st', Ok tt)
      ∧ effects st'
        = effects st ++ loop_effects words delay (file_path (self st)) (seqZ i (Z.of_nat c))
      ∧ fs st' = fs_after (fs st) tbl (file_path (self st)) i c.
Proof.
  induction m as [|m IH]; intros j i st tbl Hj Hr H0 Hlen Ht c.
  - destruct (for_loop_nil E words (len words) delay j st no_interrupt)
      as (st' & Hrun & Hfs & Hev).
    exists st'. subst c. unfold iterations_done.
    replace (match stop_after E with Some n => 0 `min` (n - j) | None => 0 end)%nat
      with 0%nat by (destruct (stop_after E); reflexivity).
    cbn. by rewrite app_nil_r.
  - destruct Hlen as [|Hlen]; [done|].
    destruct (decide (stop_after E = Some j)) as [Hs|Hs].
    + destruct (for_loop_stopped E words (len words) delay j
                  (seqZ i (Z.of_nat (S m))) st no_interrupt Hs)
        as (st' & Hrun & Hfs & Hev).
      exists st'. subst c. unfold iterations_done. rewrite Hs, Nat.sub_diag, Nat.min_0_r.
      cbn. by rewrite app_nil_r.
    + assert (Hw : ∃ w, words !! Z.to_nat i = Some w).
      { apply lookup_lt_is_Some. unfold len in Hlen. lia. }
      destruct Hw as [w Hw].
      rewrite seqZ_succ.
      rewrite (for_loop_step E words delay j i _ st w tbl) by done.
      set (st1 := {| fs := _; self := _; effects := _ |}).
      destruct (IH (S j) (i + 1) st1 (<[file_path (self st) := PInt (i + 1)]> tbl))
        as (st' & Hrun & Hev & Hfs).
      * intros n Hn. specialize (Hj n Hn). assert (n ≠ j) by congruence. lia.
      * exact Hr.
      * lia.
      * right. lia.
      * subst st1. cbn. by apply table_of_insert.
      * exists st'. split; [exact Hrun|].
        assert (Hc : c = S (iterations_done E (S j) m)).
        { subst c. unfold iterations_done. destruct (stop_after E) as [n|] eqn:Hn; [|done].
          specialize (Hj n eq_refl). assert (n ≠ j) by congruence. lia. }
        rewrite Hc, seqZ_succ, loop_effects_cons.
        split.
        -- rewrite Hev. subst st1. cbn [effects self file_path set_current_index].
           rewrite <- app_assoc. reflexivity.
        -- rewrite Hfs. subst st1. cbn [fs self file_path set_current_index].
           unfold fs_after. destruct (iterations_done E (S j) m) as [|c'].
           ++ reflexivity.
           ++ rewrite !insert_insert_eq.
              replace (i + 1 + Z.of_nat (S c')) with (i + Z.of_nat (S (S c'))) by lia.
              reflexivity.
Qed.
End Loop.

(** ** Rounding keeps the sign *)

Lemma round_half_even_nonneg n d : 0 <= n → 0 < d → 0 <= round_half_even n d.
Proof.
  intros Hn Hd. unfold round_half_even.
  assert (0 <= n / d) by (apply Z.div_pos; lia).
  destruct (2 * (n mod d) ?= d); [destruct (Z.even (n / d))| |]; lia.
Qed.

Lemma round_binary64_pos_nonneg n d :
  0 < n → 0 < d → Qle_bool 0 (round_binary64_pos n d) = true.
Proof.
  intros Hn Hd. unfold round_binary64_pos.
  destruct (0 <=? ilog2_ratio n d - 52) eqn:He.
  - apply Z.leb_le in He. unfold Qle_bool, inject_Z. cbn. apply Z.leb_le.
    assert (0 < 2 ^ (ilog2_ratio n d - 52)) by (apply Z.pow_pos_nonneg; lia).
    assert (0 <= round_half_even n (d * 2 ^ (ilog2_ratio n d - 52)))
      by (apply round_half_even_nonneg; lia).
    lia.
  - unfold Qle_bool. cbn. apply Z.leb_le.
    assert (0 < 2 ^ (- (ilog2_ratio n d - 52))) by (apply Z.pow_pos_nonneg; lia).
    assert (0 <= round_half_even (n * 2 ^ (- (ilog2_ratio n d - 52))) d)
      by (apply round_half_even_nonneg; lia).
    lia.
Qed.

(** The pacing delay of a positive rate is a length [time.sleep] accepts. *)
Lemma delay_of_positive_rate wpm :
  0 < wpm →
  ∃ delay, py_true_div_val 60 (PInt wpm) = Ok delay ∧ Qle_bool 0 delay = true.
Proof.
  intros Hw. destruct wpm as [|p|p]; try lia.
  eexists. split; [reflexivity|].
  unfold round_binary64. cbn [Qdiv Qmult Qinv inject_Z Qnum Qden Z.mul Pos.mul].
  apply round_binary64_pos_nonneg; lia.
Qed.

(** ** A session that no interrupt disturbs *)

Lemma session_runs E path txt wpm fs0 k :
  interrupt_at E = None →
  0 < wpm →
  stored_progress fs0 path k →
  0 <= k →
  let c := iterations_done E 0 (Z.to_nat (len (split txt) - k)) in
  ∃ st',
    session E path txt (PInt wpm) fs0 = (st', Ok tt)
    ∧ effects st'
      = loop_effects (split txt) (delay_of (PInt wpm)) path (seqZ k (Z.of_nat c))
    ∧ stored_progress (fs st') path (k + Z.of_nat c).
Proof.
  intros Hi Hw Hk Hrange c.
  destruct (delay_of_positive_rate wpm Hw) as (delay & Hdelay & Hd).
  destruct Hk as (tbl & Ht & Hk).
  unfold session, run.
  unfold mbind at 1, M_bind at 1, get_self at 1. cbn [self file_path text words_per_minute WordDisplayThread_init].
  unfold mbind at 1, M_bind at 1, load_progress_M at 1. cbn [fs].
  rewrite (load_progress_table _ _ _ Ht), Hk.
  unfold mbind at 1, M_bind at 1, lift at 1. rewrite Hdelay.
  unfold try_except_M.
  unfold mbind at 1, M_bind at 1, lift at 1. cbn [py_range].
  set (st0 := {| fs := fs0; self := _; effects := [] |}).
  destruct (for_loop_runs E (split txt) delay Hi Hd (Z.to_nat (len (split txt) - k))
              0%nat k st0 tbl) as (st' & Hrun & Hev & Hfs).
  - intros; lia.
  - reflexivity.
  - lia.
  - lia.
  - exact Ht.
  - fold c in Hev, Hfs.
    assert (Hseq : seqZ k (len (split txt) - k)
                   = seqZ k (Z.of_nat (Z.to_nat (len (split txt) - k)))).
    { destruct (Z.le_gt_cases 0 (len (split txt) - k)).
      - by rewrite Z2Nat.id.
      - rewrite Z2Nat.nonpos by lia. cbn. unfold seqZ.
        by rewrite Z2Nat.nonpos by lia. }
    rewrite Hseq, Hrun. exists st'. split; [reflexivity|]. split.
    + rewrite Hev. unfold delay_of. rewrite Hdelay. reflexivity.
    + rewrite Hfs. subst st0. cbn [fs self file_path WordDisplayThread_init].
      unfold fs_after. destruct c as [|c'].
      * rewrite Z.add_0_r. by exists tbl.
      * apply stored_progress_insert.
Qed.

(** ** What the effects of a loop contain *)

Lemma word_signals_app evs evs' :
  word_signals (evs ++ evs') = word_signals evs ++ word_signals evs'.
Proof. apply omap_app. Qed.

Lemma word_signals_loop words delay d (c : nat) :
  ∀ i, 0 <= i → i + Z.of_nat c <= len words →
    word_signals (loop_effects words delay d (seqZ i (Z.of_nat c)))
    = take c (drop (Z.to_nat i) words).
Proof.
  induction c as [|c IH]; intros i H0 Hlen.
  - by rewrite take_0.
  - assert (Hw : ∃ w, words !! Z.to_nat i = Some w).
    { apply lookup_lt_is_Some. unfold len in Hlen. lia. }
    destruct Hw as [w Hw].
    rewrite seqZ_succ, loop_effects_cons, word_signals_app, IH by lia.
    rewrite (drop_S _ _ _ Hw). unfold iteration_effects. rewrite Hw. cbn.
    do 3 f_equal. lia.
Qed.

Lemma progress_signals_loop words delay d indices :
  progress_signals (loop_effects words delay d indices)
  = (λ i, progress_percent i (len words)) <$> indices.
Proof.
  induction indices as [|i rest IH]; [reflexivity|].
  rewrite loop_effects_cons. unfold progress_signals in *.
  rewrite omap_app, IH. reflexivity.
Qed.

Lemma saved_indices_loop words delay d indices :
  saved_indices d (loop_effects words delay d indices) = (λ i, i + 1) <$> indices.
Proof.
  induction indices as [|i rest IH]; [reflexivity|].
  rewrite loop_effects_cons. unfold saved_indices in *.
  rewrite omap_app, IH. cbn. rewrite decide_True by done. reflexivity.
Qed.

(** ** Resuming *)

(** C1 (resume correctness).  When the store holds the index [k >= 0] for
    the document and nobody stops or interrupts the thread, a session at a
    positive rate returns, and the words it has emitted are exactly the
    tokens from index [k] on, in order: [T[k], ..., T[len(T)-1]].  With
    [k >= len(T)] it emits no word at all. *)
Theorem resume_correctness path txt wpm fs0 k :
  0 < wpm →
  stored_progress fs0 path k →
  0 <= k →
  ∃ st',
    session undisturbed path txt (PInt wpm) fs0 = (st', Ok tt)
    ∧ word_signals (effects st') = drop (Z.to_nat k) (split txt)
    ∧ (len (split txt) <= k → word_signals (effects st') = []).
Proof.
  intros Hw Hk H0.
  destruct (session_runs undisturbed path txt wpm fs0 k eq_refl Hw Hk H0)
    as (st' & Hrun & Hev & _).
  exists st'. split; [exact Hrun|].
  assert (Hwords : word_signals (effects st') = drop (Z.to_nat k) (split txt)).
  { rewrite Hev. cbn [iterations_done undisturbed stop_after].
    destruct (Z.le_gt_cases k (len (split txt))) as [Hle|Hgt].
    - rewrite word_signals_loop by lia.
      apply take_ge. rewrite length_drop. unfold len. lia.
    - rewrite Z2Nat.nonpos by lia. cbn.
      symmetry. apply drop_ge. unfold len in Hgt. lia. }
  split; [exact Hwords|].
  intros Hge. rewrite Hwords. apply drop_ge. unfold len in Hge. lia.
Qed.

(** C7 (stop, then resume).  From stored progress 0, a session that is
    stopped once it has completed [n] iterations ([0 < n <= len(T)]) has
    emitted [T[0..n)] and leaves [n] in the store; a fresh session for the
    same document then emits exactly [T[n], ..., T[len(T)-1]]: no token
    twice, none skipped. *)
Theorem stop_then_resume path txt wpm wpm' fs0 (n : nat) :
  0 < wpm → 0 < wpm' →
  stored_progress fs0 path 0 →
  (0 < n <= length (split txt))%nat →
  ∃ st1 st2,
    session (stop_after_iterations n) path txt (PInt wpm) fs0 = (st1, Ok tt)
    ∧ word_signals (effects st1) = take n (split txt)
    ∧ load_progress (fs st1) path = Ok (PInt (Z.of_nat n))
    ∧ session undisturbed path txt (PInt wpm') (fs st1) = (st2, Ok tt)
    ∧ word_signals (effects st2) = drop n (split txt)
    ∧ word_signals (effects st1) ++ word_signals (effects st2) = split txt.
Proof.
  intros Hw Hw' Hk Hn.
  destruct (session_runs (stop_after_iterations n) path txt wpm fs0 0 eq_refl Hw Hk)
    as (st1 & Hrun1 & Hev1 & Hst1); [lia|].
  assert (Hc : iterations_done (stop_after_iterations n) 0
                 (Z.to_nat (len (split txt) - 0)) = n).
  { unfold iterations_done, len. cbn. lia. }
  rewrite Hc in Hev1, Hst1. rewrite Z.add_0_l in Hst1.
  destruct (session_runs undisturbed path txt wpm' (fs st1) (Z.of_nat n) eq_refl Hw' Hst1)
    as (st2 & Hrun2 & Hev2 & _); [lia|].
  assert (Hc2 : iterations_done undisturbed 0
                  (Z.to_nat (len (split txt) - Z.of_nat n)) = (length (split txt) - n)%nat).
  { unfold iterations_done, len. cbn. lia. }
  rewrite Hc2 in Hev2.
  assert (Hwords2 : word_signals (effects st2) = drop n (split txt)).
  { rewrite Hev2, word_signals_loop by (unfold len; lia).
    rewrite Nat2Z.id. apply take_ge. rewrite length_drop. lia. }
  assert (Hwords1 : word_signals (effects st1) = take n (split txt)).
  { rewrite Hev1, word_signals_loop by (unfold len; lia). by rewrite drop_0. }
  exists st1, st2. repeat split; try done.
  - by apply load_progress_stored.
  - rewrite Hwords1, Hwords2. apply take_drop.
Qed.

(** ** The progress percentage *)

Lemma stored_progress_fs_book k : stored_progress (fs_book k) "book" k.
Proof. exists {[ "book" := PInt k ]}. split; reflexivity. Qed.

(** C2, as stated, fails: with three words the second step emits 66, the
    truncation of 66.67, where rounding to nearest gives 67. *)
Lemma progress_is_not_rounded :
  ∃ st', session undisturbed "book" "one two three" (PInt 300) (fs_book 0) = (st', Ok tt)
         ∧ progress_signals (effects st') !! 1%nat = Some 66
         ∧ spec_round_percent 1 (len (split "one two three")) = 67.
Proof. eexists. split; [vm_compute; reflexivity|]. split; reflexivity. Qed.

(** C2, amended.  In a session nobody stops or interrupts, over [N] words
    from stored index [k >= 0], the progress notification of step [i]
    ([k <= i < N]) carries [int((i+1)/N*100)]: the double-precision value
    truncated toward zero, not rounded to nearest; there is one
    notification per step and no other. *)
Theorem progress_is_truncated path txt wpm fs0 k :
  0 < wpm →
  stored_progress fs0 path k →
  0 <= k →
  ∃ st',
    session undisturbed path txt (PInt wpm) fs0 = (st', Ok tt)
    ∧ length (progress_signals (effects st')) = Z.to_nat (len (split txt) - k)
    ∧ ∀ i, k <= i < len (split txt) →
        progress_signals (effects st') !! Z.to_nat (i - k)
        = Some (py_int (py_float_mul
                  (round_binary64 (Qdiv (inject_Z (i + 1)) (inject_Z (len (split txt)))))
                  100)).
Proof.
  intros Hw Hk H0.
  destruct (session_runs undisturbed path txt wpm fs0 k eq_refl Hw Hk H0)
    as (st' & Hrun & Hev & _).
  exists st'. split; [exact Hrun|].
  rewrite Hev, progress_signals_loop. cbn [iterations_done undisturbed stop_after].
  split.
  - rewrite length_fmap, length_seqZ. lia.
  - intros i Hi. rewrite list_lookup_fmap.
    rewrite (lookup_seqZ_lt k) by lia. cbn.
    replace (k + Z.of_nat (Z.to_nat (i - k))) with i by lia.
    reflexivity.
Qed.

(** The scenario of the specification: four words give 25, 50, 75, 100. *)
Example progress_of_four_words :
  (λ i, progress_percent i 4) <$> seqZ 0 4 = [25; 50; 75; 100].
Proof. reflexivity. Qed.

(** ** The percentage stays between 0 and 100 *)

Lemma round_half_even_le n d I : 0 < d → n <= I * d → round_half_even n d <= I.
Proof.
  intros Hd Hn. unfold round_half_even.
  assert (Hq : n / d <= I) by (apply Z.div_le_upper_bound; lia).
  pose proof (Z.div_mod n d ltac:(lia)) as Hdm.
  pose proof (Z.mod_pos_bound n d Hd) as Hr.
  destruct (Z.eq_dec (n / d) I) as [Heq|Hne].
  - assert (n mod d = 0) by nia.
    replace (2 * (n mod d) ?= d) with Lt; [lia|].
    symmetry. apply Z.compare_lt_iff. lia.
  - destruct (2 * (n mod d) ?= d); [destruct (Z.even (n / d))| |]; lia.
Qed.

(** [ilog2_ratio] does not overshoot: [2^k <= n/d]. *)
Lemma ilog2_ratio_lower n d :
  0 < n → 0 < d → 0 <= ilog2_ratio n d → d * 2 ^ ilog2_ratio n d <= n.
Proof.
  intros Hn Hd. unfold ilog2_ratio.
  pose proof (Z.log2_spec n Hn) as [Hn1 Hn2].
  pose proof (Z.log2_spec d Hd) as [Hd1 Hd2].
  pose proof (Z.log2_nonneg n) as Hln. pose proof (Z.log2_nonneg d) as Hld.
  set (ln := Z.log2 n) in *. set (ld := Z.log2 d) in *.
  destruct (0 <=? ln - ld) eqn:Hk.
  - destruct (d * 2 ^ (ln - ld) <=? n) eqn:Ht; intros Hk0.
    + by apply Z.leb_le.
    + assert (Hpow : 2 ^ ln = 2 ^ Z.succ ld * 2 ^ (ln - ld - 1)).
      { rewrite <- Z.pow_add_r by lia. f_equal. lia. }
      assert (0 < 2 ^ (ln - ld - 1)) by (apply Z.pow_pos_nonneg; lia).
      nia.
  - apply Z.leb_gt in Hk.
    destruct (d <=? n * 2 ^ (- (ln - ld))); lia.
Qed.

Lemma round_binary64_pos_le n d I :
  0 < n → 0 < d → n <= I * d → I < 2 ^ 52 →
  Qle (round_binary64_pos n d) (inject_Z I).
Proof.
  intros Hn Hd HnI HI. unfold round_binary64_pos.
  assert (Hk : ilog2_ratio n d < 52).
  { destruct (Z.lt_ge_cases (ilog2_ratio n d) 52) as [|Hge]; [done|].
    pose proof (ilog2_ratio_lower n d Hn Hd ltac:(lia)) as Hlow.
    assert (2 ^ 52 <= 2 ^ ilog2_ratio n d) by (apply Z.pow_le_mono_r; lia).
    nia. }
  replace (0 <=? ilog2_ratio n d - 52) with false by (symmetry; apply Z.leb_gt; lia).
  set (e := - (ilog2_ratio n d - 52)).
  assert (Hp : 0 < 2 ^ e) by (apply Z.pow_pos_nonneg; lia).
  unfold Qle. cbn [Qnum Qden inject_Z]. rewrite Z2Pos.id by exact Hp.
  rewrite Z.mul_1_r. apply round_half_even_le; [exact Hd | nia].
Qed.

Lemma round_binary64_pos_ge0 n d :
  0 < n → 0 < d → Qle 0 (round_binary64_pos n d).
Proof.
  intros Hn Hd. apply Qle_bool_iff. by apply round_binary64_pos_nonneg.
Qed.

(** The truncation of a float between 0 and [I] is between 0 and [I]. *)
Lemma py_int_bounds x I : Qle 0 x → Qle x (inject_Z I) → 0 <= py_int x <= I.
Proof.
  destruct x as [a b]. unfold Qle, py_int. cbn [Qnum Qden inject_Z].
  rewrite !Z.mul_1_r. intros H0 HI. cbn in H0.
  rewrite Z.quot_div_nonneg by lia. split.
  - apply Z.div_pos; lia.
  - apply Z.div_le_upper_bound; lia.
Qed.

(** Every percentage the loop emits lies between 0 and 100. *)
Lemma progress_percent_bounds i total :
  0 <= i < total → 0 <= progress_percent i total <= 100.
Proof.
  intros Hi. unfold progress_percent, py_float_mul.
  destruct total as [|p|p]; try lia.
  destruct (i + 1) as [|a|a] eqn:Ha; try lia.
  assert (Hap : Z.pos a <= Z.pos p) by lia.
  assert (Hx : round_binary64 (Qdiv (inject_Z (Z.pos a)) (inject_Z (Z.pos p)))
               = round_binary64_pos (Z.pos a) (Z.pos p)).
  { unfold round_binary64. cbn. by rewrite Z.mul_1_r, Pos.mul_1_l. }
  rewrite Hx. clear Hx.
  set (q := round_binary64_pos (Z.pos a) (Z.pos p)).
  assert (Hq0 : Qle 0 q) by (apply round_binary64_pos_ge0; lia).
  assert (Hq1 : Qle q (inject_Z 1)).
  { apply round_binary64_pos_le; first [lia | reflexivity]. }
  apply py_int_bounds.
  - destruct q as [m P]. unfold Qle in Hq0. cbn in Hq0.
    unfold round_binary64. cbn [Qmult Qnum Qden inject_Z].
    destruct (m * 100) as [|n|n] eqn:Hm.
    + apply Qle_refl.
    + apply round_binary64_pos_ge0; lia.
    + lia.
  - destruct q as [m P]. unfold Qle in Hq0, Hq1. cbn in Hq0, Hq1.
    unfold round_binary64. cbn [Qmult Qnum Qden inject_Z].
    destruct (m * 100) as [|n|n] eqn:Hm.
    + unfold Qle. cbn. lia.
    + rewrite Pos.mul_1_r.
      apply round_binary64_pos_le; first [lia | reflexivity].
    + lia.
Qed.

(** ** Reading a progress file that is not a table *)

(** What the except clause of [load_all_progress] covers: a file that cannot
    be opened or holds no JSON reads as the empty table. *)
Lemma load_progress_swallowed fs d :
  fs !! PROGRESS_JSON = Some Unopenable ∨ fs !! PROGRESS_JSON = Some NotJson
  ∨ fs !! PROGRESS_JSON = None →
  load_progress fs d = Ok (PInt 0).
Proof.
  unfold load_progress, load_all_progress, os_path_exists, open_r_json_load.
  intros [-> | [-> | ->]]; reflexivity.
Qed.

(** C3 (code defect).  [load_progress] raises on a progress file that is
    malformed in a way the except clause does not cover: bytes that are not
    UTF-8 raise [UnicodeDecodeError] out of [load_all_progress], and JSON
    that is not an object (here the empty array) comes back from
    [load_all_progress] and has no [get]. *)
Theorem load_progress_raises_on_malformed_file :
  load_progress {[ PROGRESS_JSON := Undecodable ]} "book" = Raise UnicodeDecodeError
  ∧ load_all_progress {[ PROGRESS_JSON := JsonText (PList []) ]} = Ok (PList [])
  ∧ load_progress {[ PROGRESS_JSON := JsonText (PList []) ]} "book" = Raise AttributeError.
Proof. repeat split; reflexivity. Qed.

(** ** Writing the table *)

Lemma save_progress_complete file_path index fs :
  save_progress file_path index fs = save_progress_interrupted 2 file_path index fs.
Proof. reflexivity. Qed.

(** C4, as stated, fails: the write is done in place.  Cut off after the
    [open], the update of ["b"] leaves a truncated file; a reader then finds
    no progress for ["a"], which both the old and the new table hold at 1. *)
Lemma write_is_not_atomic :
  ∃ fs_cut fs_new,
    save_progress_interrupted 1 "b" (PInt 2) fs_old = Ok fs_cut
    ∧ save_progress "b" (PInt 2) fs_old = Ok fs_new
    ∧ load_progress fs_old "a" = Ok (PInt 1)
    ∧ load_progress fs_new "a" = Ok (PInt 1)
    ∧ load_progress fs_cut "a" = Ok (PInt 0).
Proof.
  do 2 eexists. split; [vm_compute; reflexivity|].
  split; [vm_compute; reflexivity|].
  repeat split; vm_compute; reflexivity.
Qed.

(** C4, amended.  On a well-formed store, [set(id, index)] rewrites the
    full table in place: it truncates the progress file and then dumps the
    updated table into it.  A reader sees the complete old table before the
    truncation, the complete new table once the dump is done, and in
    between a file without JSON, which it takes for the empty table. *)
Theorem write_in_place fs tbl id index (n : nat) :
  table_of fs tbl →
  ∃ fs',
    save_progress_interrupted n id index fs = Ok fs'
    ∧ load_all_progress fs'
      = Ok (PDict match n with
                  | O => tbl
                  | 1%nat => ∅
                  | _ => <[id := index]> tbl
                  end).
Proof.
  intros Ht. unfold save_progress_interrupted.
  rewrite (load_all_progress_table _ _ Ht). cbn [mbind result_bind py_setitem].
  assert (Hopen : exec_op (OpenW PROGRESS_JSON) fs = Ok (<[PROGRESS_JSON := NotJson]> fs)).
  { unfold table_of in Ht. cbn. by destruct (fs !! PROGRESS_JSON) as [[]|]. }
  destruct n as [|[|n]].
  - exists fs. split; [reflexivity|]. by apply load_all_progress_table.
  - exists (<[PROGRESS_JSON := NotJson]> fs). unfold interrupted_after.
    cbn [take save_all_progress_ops exec_ops]. rewrite Hopen. split; [reflexivity|].
    apply load_all_progress_table. unfold table_of. by rewrite lookup_insert_eq.
  - exists (<[PROGRESS_JSON := JsonText (PDict (<[id := index]> tbl))]> fs).
    unfold interrupted_after. cbn [take save_all_progress_ops exec_ops].
    rewrite take_nil. cbn [exec_ops]. rewrite Hopen. cbn.
    split; [by rewrite insert_insert_eq|].
    apply load_all_progress_table. by apply table_of_insert.
Qed.

(** C5 (frame property of set).  On a well-formed store, [set(id, index)]
    returns; afterwards [get(id)] is [index], and [get(id')] is what it was
    for every other document [id']. *)
Theorem save_progress_frame fs tbl id id' index :
  table_of fs tbl →
  id ≠ id' →
  ∃ fs',
    save_progress id index fs = Ok fs'
    ∧ load_progress fs' id = Ok index
    ∧ load_progress fs' id' = load_progress fs id'.
Proof.
  intros Ht Hne. eexists. split; [by apply save_progress_table|].
  assert (Ht' : table_of (<[PROGRESS_JSON := JsonText (PDict (<[id := index]> tbl))]> fs)
                  (<[id := index]> tbl)) by by apply table_of_insert.
  rewrite !(load_progress_table _ _ _ Ht'), (load_progress_table _ _ _ Ht).
  rewrite lookup_insert_eq, lookup_insert_ne by done. done.
Qed.

(** ** The context window *)




(** ** Starting playback *)

(** C8, as stated, fails: the guard of [start_display] tests the text, not
    the tokens.  A text of one space has no token, yet a thread is created
    and started for it. *)
Lemma start_display_accepts_blank_text :
  split (win_text win_blank) = []
  ∧ (start_display win_blank).2 = Some (WordDisplayThread_init "book" " " (PInt 300))
  ∧ win_thread (start_display win_blank).1
    = Some (WordDisplayThread_init "book" " " (PInt 300)).
Proof. repeat split; reflexivity. Qed.

(** C8, amended.  For every window whose text is empty, [start_display] is
    a no-op: it starts no thread, so nothing is emitted, and it leaves the
    thread, the text, the path and the settings of the window as they were;
    only the label asks for a file. *)
Theorem start_display_rejects_empty_text win :
  win_text win = "" →
  (start_display win).2 = None
  ∧ same_session_state win (start_display win).1
  ∧ win_word_label (start_display win).1 = "Please load an EPUB file first.".
Proof.
  intros Ht. destruct win as [wpm font txt thread path label].
  cbn in Ht. subst txt. unfold start_display, same_session_state. cbn.
  repeat split.
Qed.

(** ** Checkpoints *)

Lemma seqZ_shift (c : nat) :
  ∀ k, (λ i, i + 1) <$> seqZ k (Z.of_nat c) = seqZ (k + 1) (Z.of_nat c).
Proof.
  induction c as [|c IH]; intros k; [reflexivity|].
  rewrite !seqZ_succ. cbn [fmap list_fmap]. by rewrite IH.
Qed.

(** Without an interrupt the checkpoints of a session are [k+1, k+2, ...],
    each one above the index stored before it, and a session that is not
    stopped either leaves [len(T)] in the store when it began at
    [k <= len(T)]. *)
Lemma checkpoints_without_interrupt E path txt wpm fs0 k :
  interrupt_at E = None →
  0 < wpm →
  stored_progress fs0 path k →
  0 <= k <= len (split txt) →
  let c := iterations_done E 0 (Z.to_nat (len (split txt) - k)) in
  ∃ st',
    session E path txt (PInt wpm) fs0 = (st', Ok tt)
    ∧ saved_indices path (effects st') = seqZ (k + 1) (Z.of_nat c)
    ∧ load_progress (fs st') path = Ok (PInt (k + Z.of_nat c))
    ∧ (stop_after E = None → load_progress (fs st') path = Ok (PInt (len (split txt)))).
Proof.
  intros Hi Hw Hk Hrange c.
  destruct (session_runs E path txt wpm fs0 k Hi Hw Hk) as (st' & Hrun & Hev & Hst); [lia|].
  fold c in Hev, Hst.
  exists st'. split; [exact Hrun|]. split; [|split].
  - rewrite Hev, saved_indices_loop. apply seqZ_shift.
  - by apply load_progress_stored.
  - intros Hs. rewrite (load_progress_stored _ _ _ Hst). do 2 f_equal.
    subst c. unfold iterations_done. rewrite Hs. lia.
Qed.


(** ** Settings *)

(** Where the except clause of [load_app_settings] applies or the file holds
    an object, a key that is there yields its value and a key that is not
    yields the default, 300 words per minute and size 16. *)
Lemma load_settings_defaults fs tbl win :
  settings_of fs tbl →
  ∃ win',
    load_settings_from_file fs win = Ok win'
    ∧ win_words_per_minute win' = from_option id (PInt 300) (tbl !! "words_per_minute")
    ∧ win_font_size win' = from_option id (PInt 16) (tbl !! "font_size").
Proof.
  unfold settings_of, load_settings_from_file, load_app_settings,
    os_path_exists, open_r_json_load.
  destruct (fs !! SETTINGS_JSON) as [[| | |[]]|]; try done; intros ->;
    eexists; (split; [reflexivity|]); split; reflexivity.
Qed.

(** C10 (code defect).  Loading the settings raises on a settings file that
    is malformed in a way the except clause does not cover: bytes that are
    not UTF-8, or JSON that is not an object; the window is then not even
    constructed. *)
Theorem load_settings_raises_on_malformed_file :
  load_settings_from_file {[ SETTINGS_JSON := Undecodable ]} win_default
  = Raise UnicodeDecodeError
  ∧ load_settings_from_file {[ SETTINGS_JSON := JsonText (PList []) ]} win_default
    = Raise AttributeError
  ∧ MainWindow_init {[ SETTINGS_JSON := Undecodable ]} = Raise UnicodeDecodeError
  ∧ MainWindow_init {[ SETTINGS_JSON := JsonText (PList []) ]} = Raise AttributeError.
Proof. repeat split; reflexivity. Qed.

(** ** The theorems at concrete inputs *)

(** Resuming ["alpha beta gamma delta"] at index 2. *)
Lemma resume_correctness_witness :
  ∃ st',
    session undisturbed "book" "alpha beta gamma delta" (PInt 600) (fs_book 2) = (st', Ok tt)
    ∧ word_signals (effects st') = drop (Z.to_nat 2) (split "alpha beta gamma delta")
    ∧ (len (split "alpha beta gamma delta") <= 2 → word_signals (effects st') = []).
Proof.
  apply (resume_correctness "book" "alpha beta gamma delta" 600 (fs_book 2) 2).
  - lia.
  - exists {[ "book" := PInt 2 ]}. split; reflexivity.
  - lia.
Defined.

(** Stopping ["alpha beta gamma delta"] after two words and starting again. *)
Lemma stop_then_resume_witness :
  ∃ st1 st2,
    session (stop_after_iterations 2) "book" "alpha beta gamma delta" (PInt 600) (fs_book 0)
    = (st1, Ok tt)
    ∧ word_signals (effects st1) = take 2 (split "alpha beta gamma delta")
    ∧ load_progress (fs st1) "book" = Ok (PInt (Z.of_nat 2))
    ∧ session undisturbed "book" "alpha beta gamma delta" (PInt 300) (fs st1) = (st2, Ok tt)
    ∧ word_signals (effects st2) = drop 2 (split "alpha beta gamma delta")
    ∧ word_signals (effects st1) ++ word_signals (effects st2)
      = split "alpha beta gamma delta".
Proof.
  apply (stop_then_resume "book" "alpha beta gamma delta" 600 300 (fs_book 0) 2).
  - lia.
  - lia.
  - exists {[ "book" := PInt 0 ]}. split; reflexivity.
  - vm_compute. lia.
Defined.

(** The percentages of three words. *)
Lemma progress_is_truncated_witness :
  ∃ st',
    session undisturbed "book" "one two three" (PInt 300) (fs_book 0) = (st', Ok tt)
    ∧ length (progress_signals (effects st')) = Z.to_nat (len (split "one two three") - 0)
    ∧ ∀ i, 0 <= i < len (split "one two three") →
        progress_signals (effects st') !! Z.to_nat (i - 0)
        = Some (py_int (py_float_mul
                  (round_binary64
                     (Qdiv (inject_Z (i + 1)) (inject_Z (len (split "one two three")))))
                  100)).
Proof.
  apply (progress_is_truncated "book" "one two three" 300 (fs_book 0) 0).
  - lia.
  - exists {[ "book" := PInt 0 ]}. split; reflexivity.
  - lia.
Defined.

(** Updating ["b"] in the store that holds ["a"], cut off after the [open]. *)
Lemma write_in_place_witness :
  ∃ fs',
    save_progress_interrupted 1 "b" (PInt 2) fs_old = Ok fs'
    ∧ load_all_progress fs' = Ok (PDict ∅).
Proof.
  apply (write_in_place fs_old {[ "a" := PInt 1 ]} "b" (PInt 2) 1).
  reflexivity.
Defined.

(** Updating ["b"] leaves ["a"] alone. *)
Lemma save_progress_frame_witness :
  ∃ fs',
    save_progress "b" (PInt 2) fs_old = Ok fs'
    ∧ load_progress fs' "b" = Ok (PInt 2)
    ∧ load_progress fs' "a" = load_progress fs_old "a".
Proof.
  apply (save_progress_frame fs_old {[ "a" := PInt 1 ]} "b" "a" (PInt 2)).
  - reflexivity.
  - discriminate.
Defined.


(** Starting a window that has no text. *)
Lemma start_display_rejects_empty_text_witness :
  (start_display win_default).2 = None
  ∧ same_session_state win_default (start_display win_default).1
  ∧ win_word_label (start_display win_default).1 = "Please load an EPUB file first.".
Proof.
  apply (start_display_rejects_empty_text win_default). reflexivity.
Defined.

(** * More of the code *)

(** ** Splitting *)

Lemma split_from_app_space word a b c :
  py_isspace c = true →
  split_from word (a +:+ String c b) = split_from word a ++ split_from "" b.
Proof.
  intros Hc. revert word. induction a as [|x a IH]; intros word.
  - change ("" +:+ String c b) with (String c b).
    cbn [split_from]. rewrite Hc. by destruct word.
  - change (String x a +:+ String c b) with (String x (a +:+ String c b)).
    cbn [split_from]. destruct (py_isspace x); [destruct word|]; by rewrite ?IH.
Qed.

Lemma no_space_snoc word c :
  no_space word → py_isspace c = false → no_space (word +:+ String c "").
Proof.
  unfold no_space. induction word as [|x word IH]; intros Hw Hc.
  - by constructor.
  - change (String x word +:+ String c "") with (String x (word +:+ String c "")).
    cbn [String.list_ascii_of_string] in *. inversion_clear Hw. constructor; auto.
Qed.

Lemma snoc_not_empty word c : word +:+ String c "" ≠ "".
Proof. by destruct word. Qed.

Lemma split_from_tokens s :
  ∀ word, no_space word → Forall is_token (split_from word s).
Proof.
  induction s as [|c s IH]; intros word Hw.
  - destruct word; cbn [split_from]; [constructor|].
    constructor; [by split | constructor].
  - cbn [split_from]. destruct (py_isspace c) eqn:Hc.
    + destruct word.
      * apply IH. constructor.
      * constructor; [by split|]. apply IH. constructor.
    + apply IH. by apply no_space_snoc.
Qed.

(** X1.  Every token [text.split()] yields is non-empty and free of white
    space. *)
Theorem split_yields_tokens txt : Forall is_token (split txt).
Proof. apply split_from_tokens. constructor. Qed.

Lemma str_app_empty_r s : s +:+ "" = s.
Proof.
  induction s as [|x s IH]; [done|].
  change (String x s +:+ "") with (String x (s +:+ "")). by rewrite IH.
Qed.

Lemma str_app_snoc word c w : (word +:+ String c "") +:+ w = word +:+ String c w.
Proof.
  induction word as [|x word IH]; [done|].
  change ((String x word +:+ String c "") +:+ w)
    with (String x ((word +:+ String c "") +:+ w)).
  by rewrite IH.
Qed.

Lemma split_from_no_space w :
  ∀ word, no_space w → word +:+ w ≠ "" → split_from word w = [word +:+ w].
Proof.
  induction w as [|c w IH]; intros word Hw Hne.
  - rewrite str_app_empty_r in *. by destruct word.
  - unfold no_space in Hw. cbn [String.list_ascii_of_string] in Hw. inversion_clear Hw.
    cbn [split_from]. rewrite H. rewrite IH; [|done|].
    + by rewrite str_app_snoc.
    + rewrite str_app_snoc. by destruct word.
Qed.

Lemma split_token w : is_token w → split w = [w].
Proof. intros [Hne Hw]. by apply (split_from_no_space w ""). Qed.

Lemma join_cons sep p q rest :
  join sep (p :: q :: rest) = p +:+ sep +:+ join sep (q :: rest).
Proof. reflexivity. Qed.

(** The words of a text joined from parts are the words of the parts. *)
Lemma split_join parts :
  split (join " " parts) = concat (split <$> parts).
Proof.
  induction parts as [|p [|q rest] IH].
  - reflexivity.
  - cbn. by rewrite app_nil_r.
  - rewrite join_cons. change (" " +:+ join " " (q :: rest))
      with (String (Ascii.ascii_of_nat 32) (join " " (q :: rest))).
    unfold split at 1. rewrite split_from_app_space by reflexivity.
    fold (split p). fold (split (join " " (q :: rest))). rewrite IH. reflexivity.
Qed.

(** X2.  Joining the tokens of a text with single spaces and splitting
    again gives the same tokens. *)
Theorem split_join_split txt : split (join " " (split txt)) = split txt.
Proof.
  rewrite split_join.
  assert (Ht : Forall is_token (split txt)) by (apply split_from_tokens; constructor).
  induction Ht as [|w ws Hw _ IH]; [reflexivity|].
  cbn [fmap list_fmap concat]. rewrite (split_token w Hw). cbn. by rewrite IH.
Qed.

(** ** The highlighted letter *)

Lemma str_split_at (n : nat) :
  ∀ s, (n < String.length s)%nat →
    ∃ c, String.get n s = Some c
         ∧ s = str_take n s +:+ String c (str_drop (S n) s)
         ∧ String.length (str_take n s) = n.
Proof.
  induction n as [|n IH]; intros [|x s] Hlen; cbn in Hlen; try lia.
  - exists x. by destruct s.
  - destruct (IH s ltac:(lia)) as (c & Hget & Hs & Hl).
    exists c. split; [exact Hget|]. split.
    + change (str_take (S n) (String x s)) with (String x (str_take n s)).
      change (str_drop (S (S n)) (String x s)) with (str_drop (S n) s).
      change (String x (str_take n s) +:+ String c (str_drop (S n) s))
        with (String x (str_take n s +:+ String c (str_drop (S n) s))).
      by rewrite <- Hs.
    + cbn. by rewrite Hl.
Qed.

(** X3.  A word of two or more characters comes back from
    [highlight_middle_letter] with exactly its character at index
    [len(word) // 2] wrapped in the red span and every other character in
    place: taking the span away gives the word. *)
Theorem highlight_middle_letter_marks_middle word :
  (2 <= String.length word)%nat →
  ∃ pre c post,
    word = pre +:+ String c post
    ∧ String.length pre = (String.length word / 2)%nat
    ∧ highlight_middle_letter word = Ok (pre +:+ red_letter (String c "") +:+ post).
Proof.
  intros Hlen.
  assert (Hmid : (String.length word / 2 < String.length word)%nat).
  { apply Nat.div_lt; lia. }
  destruct (str_split_at _ word Hmid) as (c & Hget & Hword & Hpre).
  exists (str_take (String.length word / 2) word), c,
    (str_drop (S (String.length word / 2)) word).
  split; [exact Hword|]. split; [exact Hpre|].
  unfold highlight_middle_letter, str_at.
  replace (String.length word <=? 1)%nat with false by (symmetry; apply Nat.leb_gt; lia).
  rewrite Hget, Nat.add_1_r. reflexivity.
Qed.

Lemma highlight_middle_letter_marks_middle_witness :
  ∃ pre c post,
    "word" = pre +:+ String c post
    ∧ String.length pre = (String.length "word" / 2)%nat
    ∧ highlight_middle_letter "word" = Ok (pre +:+ red_letter (String c "") +:+ post).
Proof.
  apply (highlight_middle_letter_marks_middle "word"). vm_compute. lia.
Defined.

(** ** More on the progress store *)

(** X4.  Last writer wins: on a well-formed store, saving twice for the
    same document leaves the file system that the second save alone would
    leave. *)
Theorem save_progress_overwrites fs tbl d v1 v2 :
  table_of fs tbl →
  ∃ fs1 fs2,
    save_progress d v1 fs = Ok fs1
    ∧ save_progress d v2 fs1 = Ok fs2
    ∧ save_progress d v2 fs = Ok fs2.
Proof.
  intros Ht. do 2 eexists. split; [by apply save_progress_table|].
  rewrite (save_progress_table _ (<[d := v1]> tbl)) by by apply table_of_insert.
  rewrite (save_progress_table _ tbl) by done.
  by rewrite !insert_insert_eq.
Qed.

Lemma save_progress_overwrites_witness :
  ∃ fs1 fs2,
    save_progress "a" (PInt 5) fs_old = Ok fs1
    ∧ save_progress "a" (PInt 7) fs1 = Ok fs2
    ∧ save_progress "a" (PInt 7) fs_old = Ok fs2.
Proof.
  apply (save_progress_overwrites fs_old {[ "a" := PInt 1 ]} "a" (PInt 5) (PInt 7)).
  reflexivity.
Defined.



Lemma exec_ops_save_frame path data fs fs' other :
  exec_ops [OpenW path; JsonDump path data] fs = Ok fs' →
  other ≠ path → fs' !! other = fs !! other.
Proof.
  cbn. destruct (fs !! path) as [[]|]; cbn; intros [= <-] Hne;
    by rewrite !lookup_insert_ne.
Qed.

(** X6.  A save of progress that returns has touched the progress file and
    nothing else: every other path of the file system, the settings file
    among them, holds what it held. *)
Theorem save_progress_touches_one_file d v fs fs' path :
  save_progress d v fs = Ok fs' →
  path ≠ PROGRESS_JSON →
  fs' !! path = fs !! path ∧ load_app_settings fs' = load_app_settings fs.
Proof.
  unfold save_progress. intros Hsave Hne.
  destruct (load_all_progress fs) as [data|]; [|done].
  cbn [mbind result_bind] in Hsave.
  destruct (py_setitem data d v) as [data'|]; [|done].
  cbn [mbind result_bind] in Hsave.
  unfold save_all_progress, save_all_progress_ops in Hsave.
  split; [by eapply exec_ops_save_frame|].
  unfold load_app_settings, os_path_exists, open_r_json_load.
  by rewrite (exec_ops_save_frame _ _ _ _ SETTINGS_JSON Hsave).
Qed.

Lemma save_progress_touches_one_file_witness :
  ∃ fs',
    save_progress "b" (PInt 2) fs_old = Ok fs'
    ∧ fs' !! SETTINGS_JSON = fs_old !! SETTINGS_JSON
    ∧ load_app_settings fs' = load_app_settings fs_old.
Proof.
  eexists. split; [reflexivity|].
  apply (save_progress_touches_one_file "b" (PInt 2) fs_old _ SETTINGS_JSON).
  - reflexivity.
  - discriminate.
Defined.

(** X7.  A progress file that is not UTF-8, or that holds JSON other than
    an object, blocks every save: [save_progress] raises for every document
    and index, so the file is never rewritten (the write comes after the
    load). *)
Theorem save_progress_raises_on_corrupt_file fs d v :
  fs !! PROGRESS_JSON = Some Undecodable
  ∨ (∃ j, fs !! PROGRESS_JSON = Some (JsonText j) ∧ ∀ t, j ≠ PDict t) →
  save_progress d v fs = Raise UnicodeDecodeError
  ∨ save_progress d v fs = Raise TypeError.
Proof.
  unfold save_progress, load_all_progress, os_path_exists, open_r_json_load.
  intros [-> | (j & -> & Hj)]; [by left|]. right.
  destruct j; try reflexivity. by destruct (Hj d0).
Qed.

Lemma save_progress_raises_on_corrupt_file_witness :
  save_progress "book" (PInt 1) {[ PROGRESS_JSON := JsonText (PList []) ]}
  = Raise UnicodeDecodeError
  ∨ save_progress "book" (PInt 1) {[ PROGRESS_JSON := JsonText (PList []) ]}
    = Raise TypeError.
Proof.
  apply (save_progress_raises_on_corrupt_file
           {[ PROGRESS_JSON := JsonText (PList []) ]} "book" (PInt 1)).
  right. exists (PList []). split; [reflexivity | discriminate].
Defined.

(** ** Reading an EPUB *)

(** X8.  The words of the text extracted from a book are the words of its
    documents, document after document; items that are not documents
    contribute nothing. *)
Theorem extract_text_words html_text book :
  split (extract_text_from_epub html_text book)
  = concat ((λ item, split (html_text (get_content item)))
            <$> filter (λ item, get_type item = ITEM_DOCUMENT) book).
Proof.
  unfold extract_text_from_epub. rewrite split_join.
  by rewrite <- !list_fmap_compose.
Qed.


(** ** Settings *)

Lemma save_app_settings_writes settings fs :
  fs !! SETTINGS_JSON ≠ Some Unopenable →
  save_app_settings settings fs = Ok (<[SETTINGS_JSON := JsonText settings]> fs).
Proof.
  intros Hfs. unfold save_app_settings. cbn.
  destruct (fs !! SETTINGS_JSON) as [[]|]; try done; cbn; by rewrite insert_insert_eq.
Qed.

Lemma load_settings_after_save wpm font fs win0 :
  ∃ win',
    load_settings_from_file
      (<[SETTINGS_JSON := JsonText (PDict (<["font_size" := font]>
                                              {[ "words_per_minute" := wpm ]}))]> fs) win0
    = Ok win'
    ∧ win_words_per_minute win' = wpm ∧ win_font_size win' = font.
Proof.
  unfold load_settings_from_file, load_app_settings, os_path_exists, open_r_json_load.
  rewrite lookup_insert_eq. eexists. split; [reflexivity|]. cbn.
  rewrite lookup_insert_ne by done. rewrite lookup_singleton_eq, lookup_insert_eq. done.
Qed.

(** X10.  Settings round trip: unless the settings path cannot be opened,
    [save_current_settings] returns whatever the file held before, corrupt
    content included, and loading the settings afterwards yields the rate
    and the font size of the window that saved them. *)
Theorem settings_round_trip win win0 fs :
  fs !! SETTINGS_JSON ≠ Some Unopenable →
  ∃ fs' win',
    save_current_settings win fs = Ok fs'
    ∧ load_settings_from_file fs' win0 = Ok win'
    ∧ win_words_per_minute win' = win_words_per_minute win
    ∧ win_font_size win' = win_font_size win.
Proof.
  intros Hfs. unfold save_current_settings.
  rewrite save_app_settings_writes by done.
  destruct (load_settings_after_save (win_words_per_minute win) (win_font_size win) fs win0)
    as (win' & Hload & Hw & Hf).
  eexists. exists win'. by split.
Qed.

Lemma settings_round_trip_witness :
  ∃ fs' win',
    save_current_settings win_blank {[ SETTINGS_JSON := Undecodable ]} = Ok fs'
    ∧ load_settings_from_file fs' win_default = Ok win'
    ∧ win_words_per_minute win' = win_words_per_minute win_blank
    ∧ win_font_size win' = win_font_size win_blank.
Proof.
  apply (settings_round_trip win_blank win_default {[ SETTINGS_JSON := Undecodable ]}).
  discriminate.
Defined.

(** X11.  Settings survive a restart: after the speed slider has moved to
    [v] and the font slider to [f], a window built anew starts with rate
    [v] and font size [f]. *)
Theorem settings_survive_restart v f win ui fs :
  fs !! SETTINGS_JSON ≠ Some Unopenable →
  ∃ win1 ui1 fs1 win2 ui2 fs2 win3,
    update_speed v win ui fs = (win1, ui1, Ok fs1)
    ∧ update_font_size f win1 ui1 fs1 = (win2, ui2, Ok fs2)
    ∧ MainWindow_init fs2 = Ok win3
    ∧ win_words_per_minute win3 = PInt v
    ∧ win_font_size win3 = PInt f.
Proof.
  intros Hfs. unfold update_speed, update_font_size, save_current_settings.
  cbn [win_words_per_minute win_font_size].
  set (s1 := PDict (<["font_size" := win_font_size win]> {[ "words_per_minute" := PInt v ]})).
  set (s2 := PDict (<["font_size" := PInt f]> {[ "words_per_minute" := PInt v ]})).
  assert (H1 : save_app_settings s1 fs = Ok (<[SETTINGS_JSON := JsonText s1]> fs))
    by by apply save_app_settings_writes.
  assert (H2 : save_app_settings s2 (<[SETTINGS_JSON := JsonText s1]> fs)
               = Ok (<[SETTINGS_JSON := JsonText s2]> fs)).
  { rewrite save_app_settings_writes; [by rewrite insert_insert_eq|].
    rewrite lookup_insert_eq. discriminate. }
  rewrite H1.
  destruct (load_settings_after_save (PInt v) (PInt f) fs win_default)
    as (win' & Hload & Hw & Hf).
  do 3 eexists. do 4 eexists. split; [reflexivity|].
  cbn [win_words_per_minute win_font_size]. fold s2. rewrite H2.
  split; [reflexivity|].
  unfold MainWindow_init. subst s2. fold win_default. rewrite Hload.
  cbn. split; [reflexivity|]. by rewrite Hw, Hf.
Qed.

Lemma settings_survive_restart_witness :
  ∃ win1 ui1 fs1 win2 ui2 fs2 win3,
    update_speed 450 win_default ui_default ∅ = (win1, ui1, Ok fs1)
    ∧ update_font_size 24 win1 ui1 fs1 = (win2, ui2, Ok fs2)
    ∧ MainWindow_init fs2 = Ok win3
    ∧ win_words_per_minute win3 = PInt 450
    ∧ win_font_size win3 = PInt 24.
Proof.
  apply (settings_survive_restart 450 24 win_default ui_default ∅).
  discriminate.
Defined.

(** X12.  Saving the settings leaves the progress store alone: what
    [load_progress] answers for any document is unchanged. *)
Theorem save_settings_keeps_progress win fs fs' d :
  save_current_settings win fs = Ok fs' →
  load_progress fs' d = load_progress fs d.
Proof.
  unfold save_current_settings, save_app_settings. intros Hsave.
  unfold load_progress, load_all_progress, os_path_exists, open_r_json_load.
  by rewrite (exec_ops_save_frame _ _ _ _ PROGRESS_JSON Hsave).
Qed.

Lemma save_settings_keeps_progress_witness :
  ∃ fs',
    save_current_settings win_default fs_old = Ok fs'
    ∧ load_progress fs' "a" = load_progress fs_old "a".
Proof.
  eexists. split; [reflexivity|].
  apply (save_settings_keeps_progress win_default fs_old). reflexivity.
Defined.

(** ** The loop under any schedule *)

Lemma deliver_other E j pt : interrupt_at E ≠ Some (j, pt) → deliver E j pt = mret tt.
Proof. intros H. unfold deliver. destruct (decide _); [done | reflexivity]. Qed.

Lemma deliver_here E j pt :
  interrupt_at E = Some (j, pt) → deliver E j pt = raise KeyboardInterrupt.
Proof. intros H. unfold deliver. destruct (decide _); [reflexivity | done]. Qed.

Lemma for_loop_step_any E words delay j i rest st w tbl :
  (∀ pt, interrupt_at E ≠ Some (j, pt)) → stop_after E ≠ Some j →
  running (self st) = true →
  0 <= i → words !! Z.to_nat i = Some w →
  Qle_bool 0 delay = true →
  table_of (fs st) tbl →
  for_loop E words (len words) delay j (i :: rest) st
  = for_loop E words (len words) delay (S j) rest
      (after_iterations words delay st tbl i 1).
Proof.
  intros Hi Hs Hr H0 Hw Hd Ht.
  assert (Hlen : (len words =? 0) = false).
  { apply Z.eqb_neq. unfold len. apply lookup_lt_Some in Hw. lia. }
  cbn [for_loop].
  rewrite (gui_thread_idle _ _ Hs), !deliver_other by apply Hi.
  unfold mbind, M_bind, mret, M_ret, get_self, update_self, lift, emit.
  cbn. rewrite Hr. cbn.
  unfold py_index. apply Z.leb_le in H0 as H0'. rewrite H0', Hw. cbn.
  unfold py_true_div. rewrite Hlen. cbn.
  unfold time_sleep. rewrite Hd. unfold emit. cbn.
  unfold save_progress_M. cbn.
  rewrite (save_progress_table _ _ _ _ Ht). cbn.
  unfold after_iterations, fs_after.
  rewrite (seqZ_succ i 0). change (seqZ (i + 1) (Z.of_nat 0)) with (@nil Z).
  rewrite loop_effects_cons. unfold iteration_effects, progress_percent.
  rewrite Hw, ?H0'. cbn [default loop_effects flat_map]. rewrite app_nil_r.
  rewrite <- !app_assoc. change (Z.of_nat 1) with 1.
  replace (i + 1 - 1) with i by lia. reflexivity.
Qed.

Lemma after_iterations_succ words delay st tbl i (m : nat) :
  after_iterations words delay (after_iterations words delay st tbl i 1)
    (<[file_path (self st) := PInt (i + 1)]> tbl) (i + 1) m
  = after_iterations words delay st tbl i (S m).
Proof.
  destruct m as [|m]; [reflexivity|].
  unfold after_iterations, fs_after. cbn [fs self effects file_path set_current_index].
  f_equal.
  - rewrite !insert_insert_eq.
    replace (i + 1 + Z.of_nat (S m)) with (i + Z.of_nat (S (S m))) by lia. reflexivity.
  - replace (i + 1 + Z.of_nat (S m) - 1) with (i + Z.of_nat (S (S m)) - 1) by lia.
    reflexivity.
  - rewrite <- app_assoc. f_equal.
    rewrite (seqZ_succ i (S m)), loop_effects_cons. by f_equal.
Qed.

(** [m] iterations that nothing disturbs, whatever comes after them. *)
Lemma for_loop_steps E words delay (m : nat) :
  Qle_bool 0 delay = true →
  ∀ (j : nat) (i : Z) (st : state) (tbl : gmap string pyval) (rest : list Z),
    (∀ j', (j <= j' < j + m)%nat →
           stop_after E ≠ Some j' ∧ ∀ pt, interrupt_at E ≠ Some (j', pt)) →
    running (self st) = true →
    0 <= i → m = 0%nat ∨ i + Z.of_nat m <= len words →
    table_of (fs st) tbl →
    for_loop E words (len words) delay j (seqZ i (Z.of_nat m) ++ rest) st
    = for_loop E words (len words) delay (j + m) rest
        (after_iterations words delay st tbl i m).
Proof.
  intros Hd. induction m as [|m IH]; intros j i st tbl rest Hquiet Hr H0 Hlen Ht.
  - by rewrite Nat.add_0_r.
  - destruct Hlen as [|Hlen]; [done|].
    assert (Hw : ∃ w, words !! Z.to_nat i = Some w).
    { apply lookup_lt_is_Some. unfold len in Hlen. lia. }
    destruct Hw as [w Hw].
    destruct (Hquiet j ltac:(lia)) as [Hs Hi].
    rewrite seqZ_succ. cbn [app].
    rewrite (for_loop_step_any E words delay j i _ st w tbl) by done.
    rewrite (IH (S j) (i + 1) _ (<[file_path (self st) := PInt (i + 1)]> tbl)).
    + rewrite after_iterations_succ. f_equal. lia.
    + intros j' Hj'. apply Hquiet. lia.
    + exact Hr.
    + lia.
    + right. lia.
    + cbn. by apply table_of_insert.
Qed.

(** The loop leaves at its top without an effect when the indices are used
    up, when [stop] has just been called, or when the flag was down
    already. *)
Lemma for_loop_exit E words total delay j indices st :
  interrupt_at E ≠ Some (j, AtLoopTop) →
  indices = [] ∨ stop_after E = Some j ∨ running (self st) = false →
  ∃ st',
    for_loop E words total delay j indices st = (st', Ok tt)
    ∧ fs st' = fs st ∧ effects st' = effects st
    ∧ current_index (self st') = current_index (self st).
Proof.
  intros Hi Hwhy.
  assert (Hgo : ∀ st0, (indices = [] ∨ running (self st0) = false) →
            ∃ st',
              (deliver E j AtLoopTop ≫= λ _,
                 match indices with
                 | [] => mret tt
                 | i :: rest =>
                     get_self ≫= λ me,
                       if negb (running me) then mret tt
                       else for_loop E words total delay j (i :: rest)
                 end) st0 = (st', Ok tt)
              ∧ st' = st0).
  { intros st0 H. rewrite (deliver_other _ _ _ Hi).
    unfold mbind, M_bind, mret, M_ret, get_self. cbn.
    destruct indices as [|i rest]; [eauto|].
    destruct H as [|H]; [done|]. rewrite H. cbn. eauto. }
  destruct indices as [|i rest].
  - cbn [for_loop]. rewrite (deliver_other _ _ _ Hi).
    unfold gui_thread. destruct (decide _);
      unfold mbind, M_bind, mret, M_ret, update_self; cbn; eauto.
  - cbn [for_loop]. rewrite (deliver_other _ _ _ Hi).
    unfold gui_thread. destruct (decide (stop_after E = Some j)) as [Hs|Hs].
    + unfold mbind, M_bind, mret, M_ret, update_self, get_self. cbn. eauto.
    + destruct Hwhy as [|[|Hr]]; try done.
      unfold mbind, M_bind, mret, M_ret, get_self. cbn. rewrite Hr. cbn. eauto.
Qed.

(** ** A session under any schedule *)

(** On a well-formed store and at a positive rate, [run] gets as far as its
    loop. *)
Lemma session_unfold E path txt wpm fs0 k :
  0 < wpm →
  stored_progress fs0 path k →
  Qle_bool 0 (delay_of (PInt wpm)) = true
  ∧ session E path txt (PInt wpm) fs0
    = after_loop (for_loop E (split txt) (len (split txt)) (delay_of (PInt wpm)) 0
                    (seqZ k (len (split txt) - k))
                    (start_state path txt (PInt wpm) fs0)).
Proof.
  intros Hw (tbl & Ht & Hk).
  destruct (delay_of_positive_rate wpm Hw) as (delay & Hdelay & Hd).
  unfold delay_of. rewrite Hdelay. split; [exact Hd|].
  unfold session, run.
  unfold mbind at 1, M_bind at 1, get_self at 1.
  cbn [self file_path text words_per_minute WordDisplayThread_init].
  unfold mbind at 1, M_bind at 1, load_progress_M at 1. cbn [fs].
  rewrite (load_progress_table _ _ _ Ht), Hk.
  unfold mbind at 1, M_bind at 1, lift at 1. rewrite Hdelay.
  unfold try_except_M.
  unfold mbind at 1, M_bind at 1, lift at 1. cbn [py_range].
  fold (start_state path txt (PInt wpm) fs0).
  destruct (for_loop _ _ _ _ _ _ _) as [st' [[]|e]]; [reflexivity|].
  destruct e; reflexivity.
Qed.

Lemma seqZ_split k (c : nat) total :
  0 <= Z.of_nat c <= total →
  seqZ k total = seqZ k (Z.of_nat c) ++ seqZ (k + Z.of_nat c) (total - Z.of_nat c).
Proof.
  intros Hc. rewrite <- seqZ_app by lia. f_equal. lia.
Qed.

Lemma table_of_unique fs tbl tbl' : table_of fs tbl → table_of fs tbl' → tbl = tbl'.
Proof.
  unfold table_of. destruct (fs !! PROGRESS_JSON) as [[| | |[]]|];
    try done; intros; by subst.
Qed.

(** A session without interrupt, with the cursor it leaves in the thread. *)
Lemma session_quiet E path txt wpm fs0 k :
  interrupt_at E = None →
  0 < wpm →
  stored_progress fs0 path k →
  0 <= k →
  let c := iterations_done E 0 (Z.to_nat (len (split txt) - k)) in
  ∃ st',
    session E path txt (PInt wpm) fs0 = (st', Ok tt)
    ∧ effects st'
      = loop_effects (split txt) (delay_of (PInt wpm)) path (seqZ k (Z.of_nat c))
    ∧ current_index (self st') = match c with O => 0 | S _ => k + Z.of_nat c - 1 end
    ∧ ∀ tbl, table_of fs0 tbl → fs st' = fs_after fs0 tbl path k c.
Proof.
  intros Hi Hw Hk H0 c.
  destruct (session_unfold E path txt wpm fs0 k Hw Hk) as [Hd ->].
  destruct Hk as (tbl & Ht & Hk).
  assert (Hcdef : c = iterations_done E 0 (Z.to_nat (len (split txt) - k))) by reflexivity.
  clearbody c. unfold iterations_done in Hcdef.
  set (total := len (split txt) - k) in *.
  assert (Hc : (c <= Z.to_nat total)%nat) by (destruct (stop_after E); lia).
  assert (Hseq : seqZ k total
                 = seqZ k (Z.of_nat c) ++ seqZ (k + Z.of_nat c) (total - Z.of_nat c)).
  { destruct (Z.le_gt_cases 0 total).
    - apply seqZ_split. lia.
    - assert (c = 0%nat) as -> by lia. cbn. by rewrite Z.add_0_r, Z.sub_0_r. }
  rewrite Hseq.
  rewrite (for_loop_steps E (split txt) (delay_of (PInt wpm)) c Hd 0 k _ tbl).
  - edestruct (for_loop_exit E (split txt) (len (split txt)) (delay_of (PInt wpm)) (0 + c))
      as (st' & -> & Hfs & Hev & Hcur).
    + by rewrite Hi.
    + destruct (decide (c = Z.to_nat total)) as [Heq|Hne].
      * left. unfold seqZ. by rewrite Z2Nat.nonpos by lia.
      * right. left. destruct (stop_after E) as [n|]; [|done]. f_equal. lia.
    + exists st'. split; [reflexivity|]. rewrite Hev, Hcur, Hfs.
      split; [|split].
      * unfold after_iterations, start_state. by destruct c.
      * unfold after_iterations, start_state. by destruct c.
      * intros tbl' Ht'. rewrite (table_of_unique _ _ _ Ht' Ht).
        unfold after_iterations, start_state. by destruct c.
  - intros j' Hj'. rewrite Hi. split; [|done].
    destruct (stop_after E) as [n|]; [|done]. intros [= ->]. lia.
  - reflexivity.
  - lia.
  - destruct (decide (c = 0%nat)); [by left|]. right. subst total. lia.
  - exact Ht.
Qed.

(** X13.  A thread whose flag is down when it begins to run does nothing:
    whatever the schedule, short of an interrupt in the very header of the
    loop, it emits no signal, does not sleep and leaves the file system as
    it was. *)
Theorem stopped_thread_does_nothing E st :
  running (self st) = false →
  interrupt_at E ≠ Some (0%nat, AtLoopTop) →
  fs (run E st).1 = fs st ∧ effects (run E st).1 = effects st.
Proof.
  intros Hr Hi.
  remember (run E st) as r eqn:Hrun. unfold run in Hrun.
  unfold mbind at 1, M_bind at 1, get_self at 1 in Hrun.
  unfold mbind at 1, M_bind at 1, load_progress_M at 1 in Hrun.
  destruct (load_progress (fs st) (file_path (self st))) as [start_index|];
    [|subst r; cbn; split; congruence].
  unfold mbind at 1, M_bind at 1, lift at 1 in Hrun.
  destruct (py_true_div_val 60 (words_per_minute (self st))) as [delay|];
    [|subst r; cbn; split; congruence].
  unfold try_except_M in Hrun.
  unfold mbind at 1, M_bind at 1, lift at 1 in Hrun.
  destruct (py_range start_index (len (split (text (self st))))) as [indices|e]
    eqn:Hrange.
  - edestruct (for_loop_exit E (split (text (self st))) (len (split (text (self st))))
                 delay 0 indices st Hi) as (st' & Hloop & Hfs & Hev & _); [by right; right|].
    rewrite Hloop in Hrun. subst r; cbn; split; congruence.
  - assert (e = TypeError) as -> by (destruct start_index; by inversion Hrange).
    subst r; cbn; split; congruence.
Qed.

Lemma stopped_thread_does_nothing_witness :
  fs (run undisturbed
        (mkState (fs_book 0) (stop (WordDisplayThread_init "book" "alpha beta" (PInt 300))) [])).1
  = fs_book 0
  ∧ effects (run undisturbed
               (mkState (fs_book 0)
                  (stop (WordDisplayThread_init "book" "alpha beta" (PInt 300))) [])).1
    = [].
Proof.
  apply (stopped_thread_does_nothing undisturbed
           (mkState (fs_book 0) (stop (WordDisplayThread_init "book" "alpha beta" (PInt 300))) [])).
  - reflexivity.
  - discriminate.
Defined.

(** ** What a session without interrupt does *)

(** X14.  The trace of a session that no interrupt disturbs is, for each
    index from the stored one on and in order: the word signal, the
    progress signal, the sleep of 60/rate and then the save of the next
    index; it has one checkpoint per word, written after the delay. *)
Theorem session_effects_in_order E path txt wpm fs0 k :
  interrupt_at E = None →
  0 < wpm →
  stored_progress fs0 path k →
  0 <= k →
  ∃ st' delay (c : nat),
    session E path txt (PInt wpm) fs0 = (st', Ok tt)
    ∧ py_true_div 60 wpm = Ok delay
    ∧ effects st'
      = flat_map (λ i, [WordSignal (default "" (split txt !! Z.to_nat i));
                        ProgressSignal (progress_percent i (len (split txt)));
                        Sleep delay;
                        Saved path (i + 1)])
          (seqZ k (Z.of_nat c))
    ∧ (stop_after E = None → Z.of_nat c = Z.max 0 (len (split txt) - k)).
Proof.
  intros Hi Hw Hk H0.
  destruct (session_runs E path txt wpm fs0 k Hi Hw Hk H0) as (st' & Hrun & Hev & _).
  destruct (delay_of_positive_rate wpm Hw) as (delay & Hdelay & _).
  exists st', delay, (iterations_done E 0 (Z.to_nat (len (split txt) - k))).
  split; [exact Hrun|]. split; [exact Hdelay|]. split.
  - rewrite Hev. unfold delay_of. rewrite Hdelay. reflexivity.
  - intros Hs. unfold iterations_done. rewrite Hs. lia.
Qed.

Lemma session_effects_in_order_witness :
  ∃ st' delay (c : nat),
    session undisturbed "book" "alpha beta" (PInt 600) (fs_book 0) = (st', Ok tt)
    ∧ py_true_div 60 600 = Ok delay
    ∧ effects st'
      = flat_map (λ i, [WordSignal (default "" (split "alpha beta" !! Z.to_nat i));
                        ProgressSignal (progress_percent i (len (split "alpha beta")));
                        Sleep delay;
                        Saved "book" (i + 1)])
          (seqZ 0 (Z.of_nat c))
    ∧ (stop_after undisturbed = None → Z.of_nat c = Z.max 0 (len (split "alpha beta") - 0)).
Proof.
  apply (session_effects_in_order undisturbed "book" "alpha beta" 600 (fs_book 0) 0).
  - reflexivity.
  - lia.
  - exists {[ "book" := PInt 0 ]}. split; reflexivity.
  - lia.
Defined.

(** X15.  A session leaves the rest of the file system alone: the progress
    of every other document and the settings read as before. *)
Theorem session_keeps_other_documents E path txt wpm fs0 k d :
  interrupt_at E = None →
  0 < wpm →
  stored_progress fs0 path k →
  0 <= k →
  d ≠ path →
  ∃ st',
    session E path txt (PInt wpm) fs0 = (st', Ok tt)
    ∧ load_progress (fs st') d = load_progress fs0 d
    ∧ load_app_settings (fs st') = load_app_settings fs0.
Proof.
  intros Hi Hw Hk H0 Hd.
  destruct (session_quiet E path txt wpm fs0 k Hi Hw Hk H0)
    as (st' & Hrun & _ & _ & Hfs).
  destruct Hk as (tbl & Ht & Hk).
  exists st'. split; [exact Hrun|]. rewrite (Hfs tbl Ht).
  unfold fs_after. destruct (iterations_done _ _ _) as [|c]; [done|]. split.
  - rewrite (load_progress_table _ (<[path := PInt (k + Z.of_nat (S c))]> tbl))
      by by apply table_of_insert.
    rewrite (load_progress_table _ _ _ Ht). by rewrite lookup_insert_ne.
  - unfold load_app_settings, os_path_exists, open_r_json_load.
    by rewrite lookup_insert_ne.
Qed.

Lemma session_keeps_other_documents_witness :
  ∃ st',
    session undisturbed "b" "alpha beta" (PInt 600) fs_old = (st', Ok tt)
    ∧ load_progress (fs st') "a" = load_progress fs_old "a"
    ∧ load_app_settings (fs st') = load_app_settings fs_old.
Proof.
  apply (session_keeps_other_documents undisturbed "b" "alpha beta" 600 fs_old 0 "a").
  - reflexivity.
  - lia.
  - exists {[ "a" := PInt 1 ]}. split; reflexivity.
  - lia.
  - discriminate.
Defined.

(** X16.  A book that has been played to its end stays read: the next
    session for it emits nothing, does not sleep, writes nothing, and the
    store still holds [len(T)]. *)
Theorem finished_book_stays_finished path txt wpm wpm' fs0 k :
  0 < wpm → 0 < wpm' →
  stored_progress fs0 path k →
  0 <= k <= len (split txt) →
  ∃ st1 st2,
    session undisturbed path txt (PInt wpm) fs0 = (st1, Ok tt)
    ∧ session undisturbed path txt (PInt wpm') (fs st1) = (st2, Ok tt)
    ∧ effects st2 = []
    ∧ load_progress (fs st2) path = Ok (PInt (len (split txt))).
Proof.
  intros Hw Hw' Hk Hrange.
  destruct (session_runs undisturbed path txt wpm fs0 k eq_refl Hw Hk) as (st1 & Hrun1 & _ & Hst1);
    [lia|].
  cbn [iterations_done undisturbed stop_after] in Hst1.
  replace (k + Z.of_nat (Z.to_nat (len (split txt) - k))) with (len (split txt)) in Hst1 by lia.
  destruct (session_runs undisturbed path txt wpm' (fs st1) (len (split txt)) eq_refl Hw' Hst1)
    as (st2 & Hrun2 & Hev2 & Hst2); [unfold len; lia|].
  cbn [iterations_done undisturbed stop_after] in Hev2, Hst2.
  rewrite Z.sub_diag in Hev2, Hst2. cbn in Hev2, Hst2. rewrite Z.add_0_r in Hst2.
  exists st1, st2. repeat split; try done. by apply load_progress_stored.
Qed.

Lemma finished_book_stays_finished_witness :
  ∃ st1 st2,
    session undisturbed "book" "alpha beta" (PInt 600) (fs_book 1) = (st1, Ok tt)
    ∧ session undisturbed "book" "alpha beta" (PInt 300) (fs st1) = (st2, Ok tt)
    ∧ effects st2 = []
    ∧ load_progress (fs st2) "book" = Ok (PInt (len (split "alpha beta"))).
Proof.
  apply (finished_book_stays_finished "book" "alpha beta" 600 300 (fs_book 1) 1).
  - lia.
  - lia.
  - exists {[ "book" := PInt 1 ]}. split; reflexivity.
  - vm_compute. split; discriminate.
Defined.

(** ** The cursor and the context *)

Lemma split_nonempty_text txt : split txt ≠ [] → str_is_empty txt = false.
Proof. by destruct txt. Qed.

(** X17.  After a session that has shown at least one word, the cursor of
    the thread is the index of the word shown last, and [show_context] on a
    window that holds the thread opens the context of exactly that
    index. *)
Theorem show_context_centres_on_last_word E win wpm fs0 k :
  interrupt_at E = None →
  stop_after E ≠ Some 0%nat →
  0 < wpm →
  stored_progress fs0 (win_current_file_path win) k →
  0 <= k < len (split (win_text win)) →
  ∃ st' word,
    session E (win_current_file_path win) (win_text win) (PInt wpm) fs0 = (st', Ok tt)
    ∧ last (word_signals (effects st')) = Some word
    ∧ split (win_text win) !! Z.to_nat (current_index (self st')) = Some word
    ∧ show_context (with_thread win (self st'))
      = Some (update_context (win_text win) (current_index (self st'))).
Proof.
  intros Hi Hs Hw Hk Hrange.
  destruct (session_quiet E (win_current_file_path win) (win_text win) wpm fs0 k Hi Hw Hk)
    as (st' & Hrun & Hev & Hcur & _); [lia|].
  set (T := split (win_text win)) in *.
  set (c := iterations_done E 0 (Z.to_nat (len T - k))) in *.
  assert (Hc : (1 <= c <= Z.to_nat (len T - k))%nat).
  { subst c. unfold iterations_done.
    destruct (stop_after E) as [[|n]|]; [by destruct Hs|lia|lia]. }
  destruct c as [|c']; [lia|]. set (c := S c') in *.
  assert (Hword : ∃ w, T !! Z.to_nat (k + Z.of_nat c - 1) = Some w).
  { apply lookup_lt_is_Some. unfold len in *. lia. }
  destruct Hword as [w Hword].
  exists st', w. split; [exact Hrun|]. rewrite Hcur, Hev. split; [|split].
  - rewrite word_signals_loop by lia. rewrite last_lookup.
    rewrite length_take, length_drop.
    rewrite lookup_take_lt by (unfold len in *; lia). rewrite lookup_drop.
    rewrite <- Hword. f_equal. unfold len in *. lia.
  - exact Hword.
  - unfold show_context, with_thread. cbn [win_thread win_text]. rewrite ?Hcur.
    rewrite split_nonempty_text; [reflexivity|].
    intros HT. clear -HT Hrange. subst T. rewrite HT in Hrange.
    unfold len in Hrange. cbn in Hrange. lia.
Qed.

Lemma show_context_centres_on_last_word_witness :
  ∃ st' word,
    session (stop_after_iterations 2) (win_current_file_path win_loaded)
      (win_text win_loaded) (PInt 300) (fs_book 0) = (st', Ok tt)
    ∧ last (word_signals (effects st')) = Some word
    ∧ split (win_text win_loaded) !! Z.to_nat (current_index (self st')) = Some word
    ∧ show_context (with_thread win_loaded (self st'))
      = Some (update_context (win_text win_loaded) (current_index (self st'))).
Proof.
  apply (show_context_centres_on_last_word (stop_after_iterations 2) win_loaded 300
           (fs_book 0) 0).
  - reflexivity.
  - discriminate.
  - lia.
  - exists {[ "book" := PInt 0 ]}. split; reflexivity.
  - vm_compute. split; [discriminate | reflexivity].
Defined.

(** ** The percentages of a session *)

Lemma round_binary64_pos_self n :
  0 < n → round_binary64_pos n n = Qmake (2 ^ 52) (Z.to_pos (2 ^ 52)).
Proof.
  intros Hn. unfold round_binary64_pos, ilog2_ratio.
  rewrite Z.sub_diag. change (0 <=? 0) with true. cbv iota.
  rewrite Z.pow_0_r, Z.mul_1_r, Z.leb_refl.
  change (0 <=? 0 - 52) with false. change (- (0 - 52)) with 52. cbv iota.
  f_equal. unfold round_half_even.
  replace (n * 2 ^ 52) with (2 ^ 52 * n) by lia.
  rewrite Z.div_mul, Z.mod_mul by lia.
  replace (2 * 0 ?= n) with Lt by (symmetry; apply Z.compare_lt_iff; lia).
  reflexivity.
Qed.

Lemma progress_percent_last total : 0 < total → progress_percent (total - 1) total = 100.
Proof.
  intros Ht. unfold progress_percent, py_float_mul.
  replace (total - 1 + 1) with total by lia.
  destruct total as [|p|p]; try lia.
  assert (Hx : round_binary64 (Qdiv (inject_Z (Z.pos p)) (inject_Z (Z.pos p)))
               = round_binary64_pos (Z.pos p) (Z.pos p)).
  { unfold round_binary64. cbn. by rewrite Z.mul_1_r, Pos.mul_1_l. }
  rewrite Hx, round_binary64_pos_self by lia. reflexivity.
Qed.

(** X18.  Every progress signal of a session without interrupt lies
    between 0 and 100, and a session that is not stopped and has a word
    left to show ends on 100. *)
Theorem progress_signals_within_0_100 E path txt wpm fs0 k :
  interrupt_at E = None →
  0 < wpm →
  stored_progress fs0 path k →
  0 <= k →
  ∃ st',
    session E path txt (PInt wpm) fs0 = (st', Ok tt)
    ∧ Forall (λ p, 0 <= p <= 100) (progress_signals (effects st'))
    ∧ (stop_after E = None → k < len (split txt) →
       last (progress_signals (effects st')) = Some 100).
Proof.
  intros Hi Hw Hk H0.
  destruct (session_runs E path txt wpm fs0 k Hi Hw Hk H0) as (st' & Hrun & Hev & _).
  exists st'. split; [exact Hrun|]. rewrite Hev, progress_signals_loop.
  set (c := iterations_done E 0 (Z.to_nat (len (split txt) - k))).
  assert (Hc : (c <= Z.to_nat (len (split txt) - k))%nat).
  { subst c. unfold iterations_done. destruct (stop_after E); lia. }
  split.
  - apply Forall_fmap, Forall_forall. intros i Hin. cbn.
    apply elem_of_seqZ in Hin. apply progress_percent_bounds. lia.
  - intros Hs Hlt.
    assert (c = Z.to_nat (len (split txt) - k)) as Hceq
        by (subst c; unfold iterations_done; by rewrite Hs).
    rewrite fmap_last, last_lookup, length_seqZ.
    rewrite (lookup_seqZ_lt k) by lia. cbn.
    rewrite <- (progress_percent_last (len (split txt))) by lia.
    do 2 f_equal. lia.
Qed.

Lemma progress_signals_within_0_100_witness :
  ∃ st',
    session undisturbed "book" "one two three" (PInt 300) (fs_book 0) = (st', Ok tt)
    ∧ Forall (λ p, 0 <= p <= 100) (progress_signals (effects st'))
    ∧ (stop_after undisturbed = None → 0 < len (split "one two three") →
       last (progress_signals (effects st')) = Some 100).
Proof.
  apply (progress_signals_within_0_100 undisturbed "book" "one two three" 300 (fs_book 0) 0).
  - reflexivity.
  - lia.
  - exists {[ "book" := PInt 0 ]}. split; reflexivity.
  - lia.
Defined.

(** ** Resetting and reloading *)

(** X19.  Reset round trip: on a well-formed store, [reset_progress] for
    the loaded book puts 0 into the progress bar, leaves the progress of
    every other document as it was, and the next session emits the whole
    text from its first word. *)
Theorem reset_then_play win ui fs tbl wpm :
  table_of fs tbl →
  win_current_file_path win ≠ "" →
  0 < wpm →
  ∃ win' ui' fs' st',
    reset_progress win ui fs = Ok (win', ui', fs')
    ∧ progress_bar ui' = 0
    ∧ (∀ d, d ≠ win_current_file_path win → load_progress fs' d = load_progress fs d)
    ∧ session undisturbed (win_current_file_path win') (win_text win') (PInt wpm) fs'
      = (st', Ok tt)
    ∧ word_signals (effects st') = split (win_text win).
Proof.
  intros Ht Hpath Hw. unfold reset_progress.
  replace (str_is_empty (win_current_file_path win)) with false
    by by destruct (win_current_file_path win).
  rewrite (save_progress_table _ _ _ _ Ht). cbn [mbind result_bind mret result_ret].
  set (fs' := <[PROGRESS_JSON := _]> fs).
  assert (Hst : stored_progress fs' (win_current_file_path win) 0)
    by apply stored_progress_insert.
  destruct (session_runs undisturbed (win_current_file_path win) (win_text win) wpm fs' 0
              eq_refl Hw Hst) as (st' & Hrun & Hev & _); [lia|].
  do 3 eexists. exists st'. split; [reflexivity|]. split; [reflexivity|]. split; [|split].
  - intros d Hd.
    rewrite (load_progress_table fs' (<[win_current_file_path win := PInt 0]> tbl))
      by by apply table_of_insert.
    rewrite (load_progress_table _ _ _ Ht). by rewrite lookup_insert_ne.
  - exact Hrun.
  - rewrite Hev. cbn [iterations_done undisturbed stop_after].
    rewrite word_signals_loop by (unfold len; lia).
    rewrite Z.sub_0_r. unfold len. rewrite Nat2Z.id. cbn [Z.to_nat drop].
    apply firstn_all.
Qed.

Lemma reset_then_play_witness :
  ∃ win' ui' fs' st',
    reset_progress win_loaded ui_default (fs_book 2) = Ok (win', ui', fs')
    ∧ progress_bar ui' = 0
    ∧ (∀ d, d ≠ win_current_file_path win_loaded
            → load_progress fs' d = load_progress (fs_book 2) d)
    ∧ session undisturbed (win_current_file_path win') (win_text win') (PInt 300) fs'
      = (st', Ok tt)
    ∧ word_signals (effects st') = split (win_text win_loaded).
Proof.
  apply (reset_then_play win_loaded ui_default (fs_book 2) {[ "book" := PInt 2 ]} 300).
  - reflexivity.
  - discriminate.
  - lia.
Defined.

(** X20.  Reopening a book shows where it stands: with the store holding
    [k] for the chosen path ([0 <= k <= N], [N > 0] words), [load_file]
    puts [int(k/N*100)] into the progress bar, which lies between 0 and
    100 and, for [k >= 1], is the percentage the session that stored [k]
    emitted last; the window then holds the path and the extracted text. *)
Theorem load_file_shows_progress html_text path book win ui fs k :
  path ≠ "" →
  stored_progress fs path k →
  0 <= k <= len (split (extract_text_from_epub html_text book)) →
  0 < len (split (extract_text_from_epub html_text book)) →
  ∃ win' ui',
    load_file html_text path book win ui fs = (win', ui', Ok tt)
    ∧ win_current_file_path win' = path
    ∧ win_text win' = extract_text_from_epub html_text book
    ∧ progress_bar ui'
      = progress_percent (k - 1) (len (split (extract_text_from_epub html_text book)))
    ∧ 0 <= progress_bar ui' <= 100.
Proof.
  intros Hpath Hk Hrange Hpos. unfold load_file.
  replace (str_is_empty path) with false by by destruct path.
  rewrite (load_progress_stored _ _ _ Hk). cbn [mbind result_bind mret result_ret].
  set (N := len (split (extract_text_from_epub html_text book))) in *.
  replace (0 <? N) with true by (symmetry; apply Z.ltb_lt; lia).
  unfold py_val_true_div, py_true_div.
  replace (N =? 0) with false by (symmetry; apply Z.eqb_neq; lia).
  cbn [mbind result_bind mret result_ret].
  do 2 eexists. split; [reflexivity|]. cbn [win_current_file_path win_text progress_bar].
  repeat split.
  - unfold progress_percent. by replace (k - 1 + 1) with k by lia.
  - destruct (decide (k = 0)) as [->|]; [by vm_compute|].
    replace k with (k - 1 + 1) by lia. apply progress_percent_bounds. lia.
  - destruct (decide (k = 0)) as [->|]; [by vm_compute|].
    replace k with (k - 1 + 1) by lia. apply progress_percent_bounds. lia.
Qed.

Lemma load_file_shows_progress_witness :
  ∃ win' ui',
    load_file id "book" book_demo win_default ui_default (fs_book 2) = (win', ui', Ok tt)
    ∧ win_current_file_path win' = "book"
    ∧ win_text win' = extract_text_from_epub id book_demo
    ∧ progress_bar ui'
      = progress_percent (2 - 1) (len (split (extract_text_from_epub id book_demo)))
    ∧ 0 <= progress_bar ui' <= 100.
Proof.
  apply (load_file_shows_progress id "book" book_demo win_default ui_default (fs_book 2) 2).
  - discriminate.
  - exists {[ "book" := PInt 2 ]}. split; reflexivity.
  - vm_compute. split; discriminate.
  - reflexivity.
Defined.

(** ** Interrupts *)

(** The iteration in which the interrupt arrives: the loop raises with the
    effects it had performed up to that point. *)
Lemma interrupted_iteration E words delay j pt i rest st w :
  interrupt_at E = Some (j, pt) → stop_after E ≠ Some j →
  running (self st) = true →
  0 <= i → words !! Z.to_nat i = Some w →
  Qle_bool 0 delay = true →
  for_loop E words (len words) delay j (i :: rest) st
  = ({| fs := fs st;
        self := match pt with
                | AtLoopTop => self st
                | _ => set_current_index i (self st)
                end;
        effects := effects st
                   ++ take (point_depth pt) (iteration_effects words delay (file_path (self st)) i) |},
     Raise KeyboardInterrupt).
Proof.
  intros Hi Hs Hr H0 Hw Hd.
  assert (Hlen : (len words =? 0) = false).
  { apply Z.eqb_neq. unfold len. apply lookup_lt_Some in Hw. lia. }
  assert (Hother : ∀ pt', pt' ≠ pt → deliver E j pt' = mret tt).
  { intros pt' Hne. apply deliver_other. rewrite Hi. congruence. }
  apply Z.leb_le in H0 as H0'.
  cbn [for_loop]. rewrite (gui_thread_idle _ _ Hs).
  destruct pt; rewrite (deliver_here _ _ _ Hi), ?Hother by done;
    unfold mbind, M_bind, mret, M_ret, get_self, update_self, lift, emit, raise;
    cbn; rewrite ?Hr; cbn;
    unfold py_index; rewrite ?H0', ?Hw; cbn;
    unfold py_true_div; rewrite ?Hlen; cbn;
    unfold time_sleep; rewrite ?Hd; unfold emit; cbn;
    unfold iteration_effects, progress_percent; rewrite ?Hw, ?app_nil_r, <- ?app_assoc;
    try reflexivity; by destruct st.
Qed.

Lemma table_after_iterations words delay st tbl i (m : nat) :
  table_of (fs st) tbl →
  ∃ tbl', table_of (fs (after_iterations words delay st tbl i m)) tbl'.
Proof.
  intros Ht. destruct m as [|m]; [by exists tbl|].
  eexists. unfold after_iterations, fs_after. cbn [fs]. by apply table_of_insert.
Qed.

(** X21.  The handler of [KeyboardInterrupt]: when the interrupt arrives at
    point [pt] of iteration [j] of a session that began at the stored index
    [k], the session returns, having shown the words [T[k], ...] up to the
    interrupted one (included once its signal is out), and the handler
    leaves the cursor in the store.  The stored index never passes the
    words shown, so a later session skips no word. *)
Theorem interrupted_session path txt wpm fs0 k (j : nat) pt :
  0 < wpm →
  stored_progress fs0 path k →
  0 <= k →
  k + Z.of_nat j < len (split txt) →
  ∃ st',
    session (interrupt_only j pt) path txt (PInt wpm) fs0 = (st', Ok tt)
    ∧ word_signals (effects st') = take (words_shown pt j) (drop (Z.to_nat k) (split txt))
    ∧ load_progress (fs st') path = Ok (PInt (index_saved pt k j))
    ∧ index_saved pt k j <= k + Z.of_nat (words_shown pt j).
Proof.
  intros Hw Hk H0 Hj.
  destruct (session_unfold (interrupt_only j pt) path txt wpm fs0 k Hw Hk) as [Hd ->].
  destruct Hk as (tbl & Ht & Hk).
  set (T := split txt) in *. set (delay := delay_of (PInt wpm)) in *.
  assert (Hword : ∃ w, T !! Z.to_nat (k + Z.of_nat j) = Some w).
  { apply lookup_lt_is_Some. unfold len in Hj. lia. }
  destruct Hword as [w Hword].
  rewrite (seqZ_split k j) by lia.
  replace (len T - k - Z.of_nat j)
    with (Z.of_nat (S (Z.to_nat (len T - k - Z.of_nat j - 1)))) by lia.
  rewrite (seqZ_succ (k + Z.of_nat j)).
  rewrite (for_loop_steps _ T delay j Hd 0 k _ tbl);
    [|intros j' Hj'; split; [done|intros pt'; cbn; intros [= -> _]; lia]
     |reflexivity|lia|right; lia|exact Ht].
  set (stj := after_iterations T delay (start_state path txt (PInt wpm) fs0) tbl k j).
  assert (Hrun_j : running (self stj) = true) by (subst stj; by destruct j).
  assert (Hpath_j : file_path (self stj) = path) by (subst stj; by destruct j).
  assert (Hev_j : effects stj = loop_effects T delay path (seqZ k (Z.of_nat j)))
    by (subst stj; by destruct j).
  assert (Hcur_j : current_index (self stj)
                   = match j with O => 0 | S j' => k + Z.of_nat j' end).
  { subst stj. destruct j as [|j']; [done|]. cbn. lia. }
  destruct (table_after_iterations T delay (start_state path txt (PInt wpm) fs0) tbl k j Ht)
    as [tblj Htj]. fold stj in Htj.
  rewrite (interrupted_iteration _ T delay (0 + j) pt _ _ stj w);
    [|reflexivity|done|exact Hrun_j|lia|exact Hword|exact Hd].
  unfold after_loop. cbn [self file_path current_index].
  set (idx := current_index _). set (pth := file_path _).
  assert (Hpth : pth = path) by (subst pth; by destruct pt).
  assert (Hidx : idx = index_saved pt k j).
  { subst idx. destruct pt; cbn [set_current_index current_index index_saved];
      rewrite ?Hcur_j; by destruct j. }
  unfold save_progress_M. cbn [fs self effects].
  rewrite (save_progress_table _ _ _ _ Htj). rewrite Hpth, Hidx.
  eexists. split; [reflexivity|]. cbn [fs effects]. split; [|split].
  - rewrite Hev_j, Hpath_j, !word_signals_app, word_signals_loop by lia.
    cbn [word_signals omap]. rewrite app_nil_r.
    unfold iteration_effects. rewrite Hword.
    destruct pt; cbn; rewrite ?app_nil_r; try reflexivity;
      symmetry; apply take_S_r; rewrite lookup_drop; rewrite <- Hword; f_equal; lia.
  - apply load_progress_stored, stored_progress_insert.
  - destruct pt, j; cbn; lia.
Qed.

Lemma interrupted_session_witness :
  ∃ st',
    session (interrupt_only 1 AfterProgress) "book" "alpha beta gamma" (PInt 300) (fs_book 0)
    = (st', Ok tt)
    ∧ word_signals (effects st')
      = take (words_shown AfterProgress 1) (drop (Z.to_nat 0) (split "alpha beta gamma"))
    ∧ load_progress (fs st') "book" = Ok (PInt (index_saved AfterProgress 0 1))
    ∧ index_saved AfterProgress 0 1 <= 0 + Z.of_nat (words_shown AfterProgress 1).
Proof.
  apply (interrupted_session "book" "alpha beta gamma" 300 (fs_book 0) 0 1 AfterProgress).
  - lia.
  - exists {[ "book" := PInt 0 ]}. split; reflexivity.
  - lia.
  - reflexivity.
Defined.

(** ** The context window for any index *)


(** ** A rate that is not positive *)

Lemma ilog2_ratio_lower_neg n d :
  0 < n → 0 < d → ilog2_ratio n d < 0 → d <= n * 2 ^ (- ilog2_ratio n d).
Proof.
  intros Hn Hd. unfold ilog2_ratio.
  pose proof (Z.log2_spec n Hn) as [Hn1 Hn2].
  pose proof (Z.log2_spec d Hd) as [Hd1 Hd2].
  pose proof (Z.log2_nonneg n) as Hln. pose proof (Z.log2_nonneg d) as Hld.
  set (ln := Z.log2 n) in *. set (ld := Z.log2 d) in *.
  destruct (0 <=? ln - ld) eqn:Hk.
  - apply Z.leb_le in Hk.
    destruct (d * 2 ^ (ln - ld) <=? n) eqn:Ht; intros Hk0; [lia|].
    assert (ln = ld) as Heq by lia. rewrite Heq in *.
    replace (- (ld - ld - 1)) with 1 by lia.
    rewrite Z.pow_succ_r in Hd2 by lia. lia.
  - apply Z.leb_gt in Hk.
    destruct (d <=? n * 2 ^ (- (ln - ld))) eqn:Ht; intros _.
    + by apply Z.leb_le.
    + assert (Hpow : 2 ^ Z.succ ld = 2 ^ ln * 2 ^ (- (ln - ld - 1))).
      { rewrite <- Z.pow_add_r by lia. f_equal. lia. }
      assert (0 < 2 ^ (- (ln - ld - 1))) by (apply Z.pow_pos_nonneg; lia).
      nia.
Qed.

Lemma round_half_even_ge n d : 0 < d → n / d <= round_half_even n d.
Proof.
  intros Hd. unfold round_half_even.
  destruct (2 * (n mod d) ?= d); [destruct (Z.even (n / d))| |]; lia.
Qed.

Lemma round_binary64_pos_positive n d :
  0 < n → 0 < d → 0 < Qnum (round_binary64_pos n d).
Proof.
  intros Hn Hd. unfold round_binary64_pos.
  set (k := ilog2_ratio n d).
  destruct (0 <=? k - 52) eqn:He.
  - apply Z.leb_le in He.
    pose proof (ilog2_ratio_lower n d Hn Hd ltac:(fold k; lia)) as Hlow. fold k in Hlow.
    assert (Hp : 0 < 2 ^ (k - 52)) by (apply Z.pow_pos_nonneg; lia).
    assert (Hsplit : 2 ^ k = 2 ^ (k - 52) * 2 ^ 52).
    { rewrite <- Z.pow_add_r by lia. f_equal. lia. }
    assert (1 <= n / (d * 2 ^ (k - 52))).
    { apply Z.div_le_lower_bound; nia. }
    pose proof (round_half_even_ge n (d * 2 ^ (k - 52)) ltac:(nia)).
    cbn [inject_Z Qnum]. nia.
  - apply Z.leb_gt in He. cbn [Qnum].
    assert (Hp : 0 < 2 ^ (- (k - 52))) by (apply Z.pow_pos_nonneg; lia).
    assert (d <= n * 2 ^ (- (k - 52))).
    { destruct (Z.lt_ge_cases k 0) as [Hneg|Hpos].
      - pose proof (ilog2_ratio_lower_neg n d Hn Hd Hneg) as Hlow. fold k in Hlow.
        assert (Hsplit : 2 ^ (- (k - 52)) = 2 ^ (- k) * 2 ^ 52).
        { rewrite <- Z.pow_add_r by lia. f_equal. lia. }
        assert (0 < 2 ^ (- k)) by (apply Z.pow_pos_nonneg; lia). nia.
      - pose proof (ilog2_ratio_lower n d Hn Hd Hpos) as Hlow. fold k in Hlow.
        assert (0 < 2 ^ k) by (apply Z.pow_pos_nonneg; lia). nia. }
    assert (1 <= n * 2 ^ (- (k - 52)) / d) by (apply Z.div_le_lower_bound; lia).
    pose proof (round_half_even_ge (n * 2 ^ (- (k - 52))) d Hd). lia.
Qed.

(** The delay of a negative rate is a length [time.sleep] refuses. *)
Lemma delay_of_negative_rate wpm :
  wpm < 0 →
  ∃ delay, py_true_div_val 60 (PInt wpm) = Ok delay ∧ Qle_bool 0 delay = false.
Proof.
  intros Hw. destruct wpm as [|p|p]; try lia.
  eexists. split; [reflexivity|].
  unfold round_binary64. cbn [Qdiv Qmult Qinv inject_Z Qnum Qden Z.mul Pos.mul].
  change (60 * -1) with (Z.neg 60). cbv iota. rewrite Pos.mul_1_l.
  pose proof (round_binary64_pos_positive 60 (Z.pos p) ltac:(lia) ltac:(lia)) as Hpos.
  destruct (round_binary64_pos 60 (Z.pos p)) as [a b]. cbn in Hpos.
  unfold Qle_bool, Qopp. cbn. apply Z.leb_gt. lia.
Qed.

(** X23.  A rate that is not positive never reaches a checkpoint.  At rate
    0 [run] raises [ZeroDivisionError] before it emits anything; at a
    negative rate it shows the first word due, then [time.sleep] raises
    [ValueError].  Either way the exception leaves [run] and the store is
    as it was. *)
Theorem nonpositive_rate_never_checkpoints path txt wpm fs0 k :
  wpm <= 0 →
  stored_progress fs0 path k →
  0 <= k < len (split txt) →
  ∃ st' e,
    session undisturbed path txt (PInt wpm) fs0 = (st', Raise e)
    ∧ e = (if wpm =? 0 then ZeroDivisionError else ValueError)
    ∧ fs st' = fs0
    ∧ word_signals (effects st')
      = (if wpm =? 0 then [] else take 1 (drop (Z.to_nat k) (split txt))).
Proof.
  intros Hw (tbl & Ht & Hk) Hrange.
  assert (Hword : ∃ w, split txt !! Z.to_nat k = Some w).
  { apply lookup_lt_is_Some. unfold len in Hrange. lia. }
  destruct Hword as [w Hword].
  unfold session, run.
  unfold mbind at 1, M_bind at 1, get_self at 1.
  cbn [self file_path text words_per_minute WordDisplayThread_init].
  unfold mbind at 1, M_bind at 1, load_progress_M at 1. cbn [fs].
  rewrite (load_progress_table _ _ _ Ht), Hk.
  unfold mbind at 1, M_bind at 1, lift at 1.
  destruct (Z.eq_dec wpm 0) as [->|Hne].
  - cbn. do 2 eexists. by repeat split.
  - replace (wpm =? 0) with false by (symmetry; apply Z.eqb_neq; lia).
    destruct (delay_of_negative_rate wpm ltac:(lia)) as (delay & -> & Hd).
    unfold try_except_M.
    unfold mbind at 1, M_bind at 1, lift at 1. cbn [py_range].
    replace (len (split txt) - k)
      with (Z.of_nat (S (Z.to_nat (len (split txt) - k - 1)))) by lia.
    rewrite seqZ_succ.
    assert (Hlen : (len (split txt) =? 0) = false) by (apply Z.eqb_neq; lia).
    assert (H0' : (0 <=? k) = true) by (apply Z.leb_le; lia).
    cbn [for_loop].
    rewrite (gui_thread_idle undisturbed 0) by done.
    rewrite !(deliver_none undisturbed) by done.
    unfold mbind, M_bind, mret, M_ret, get_self, update_self, lift, emit.
    cbn. unfold py_index. rewrite !H0', Hword. cbn.
    unfold py_true_div. rewrite Hlen. cbn.
    unfold time_sleep. rewrite Hd. unfold raise. cbn.
    do 2 eexists. split; [reflexivity|]. repeat split.
    cbn. by rewrite (drop_S _ _ _ Hword).
Qed.

Lemma nonpositive_rate_never_checkpoints_witness :
  ∃ st' e,
    session undisturbed "book" "alpha beta" (PInt (-5)) (fs_book 0) = (st', Raise e)
    ∧ e = (if -5 =? 0 then ZeroDivisionError else ValueError)
    ∧ fs st' = fs_book 0
    ∧ word_signals (effects st')
      = (if -5 =? 0 then [] else take 1 (drop (Z.to_nat 0) (split "alpha beta"))).
Proof.
  apply (nonpositive_rate_never_checkpoints "book" "alpha beta" (-5) (fs_book 0) 0).
  - lia.
  - exists {[ "book" := PInt 0 ]}. split; reflexivity.
  - vm_compute. split; [discriminate | reflexivity].
Defined.

(** ** From the Start button to the words *)

(** X24.  Pressing Start on a window with a book loaded creates a fresh
    thread for the window's path, text and rate, and that thread, left to
    run, shows the words of the book from the stored index on. *)
Theorem start_display_resumes win fs wpm k :
  win_text win ≠ "" →
  win_words_per_minute win = PInt wpm →
  0 < wpm →
  stored_progress fs (win_current_file_path win) k →
  0 <= k →
  ∃ win' thread st',
    start_display win = (win', Some thread)
    ∧ win_thread win' = Some thread
    ∧ running thread = true
    ∧ run undisturbed {| fs := fs; self := thread; effects := [] |} = (st', Ok tt)
    ∧ word_signals (effects st') = drop (Z.to_nat k) (split (win_text win)).
Proof.
  intros Htxt Hrate Hw Hk H0.
  destruct (session_runs undisturbed (win_current_file_path win) (win_text win) wpm fs k
              eq_refl Hw Hk H0) as (st' & Hrun & Hev & _).
  unfold start_display.
  replace (str_is_empty (win_text win)) with false by by destruct (win_text win).
  do 2 eexists. exists st'. split; [reflexivity|]. cbn [win_thread].
  split; [reflexivity|]. split; [reflexivity|].
  cbn [stop_display win_current_file_path win_text win_words_per_minute].
  rewrite Hrate. split; [exact Hrun|].
  rewrite Hev. cbn [iterations_done undisturbed stop_after].
  destruct (Z.le_gt_cases k (len (split (win_text win)))) as [Hle|Hgt].
  - rewrite word_signals_loop by lia.
    apply take_ge. rewrite length_drop. unfold len. lia.
  - rewrite Z2Nat.nonpos by lia. cbn.
    symmetry. apply drop_ge. unfold len in Hgt. lia.
Qed.

Lemma start_display_resumes_witness :
  ∃ win' thread st',
    start_display win_loaded = (win', Some thread)
    ∧ win_thread win' = Some thread
    ∧ running thread = true
    ∧ run undisturbed {| fs := fs_book 1; self := thread; effects := [] |} = (st', Ok tt)
    ∧ word_signals (effects st') = drop (Z.to_nat 1) (split (win_text win_loaded)).
Proof.
  apply (start_display_resumes win_loaded (fs_book 1) 300 1).
  - discriminate.
  - reflexivity.
  - lia.
  - exists {[ "book" := PInt 1 ]}. split; reflexivity.
  - lia.
Defined.

(** ** The percentages never go back *)

(** Rounding to the nearest integer is monotone in the ratio. *)
Lemma round_half_even_mono a b a' b' :
  0 < b → 0 < b' → a * b' <= a' * b →
  round_half_even a b <= round_half_even a' b'.
Proof.
  intros Hb Hb' Hle. unfold round_half_even.
  pose proof (Z.div_mod a b ltac:(lia)) as Ha.
  pose proof (Z.div_mod a' b' ltac:(lia)) as Ha'.
  pose proof (Z.mod_pos_bound a b Hb) as Hr.
  pose proof (Z.mod_pos_bound a' b' Hb') as Hr'.
  set (q := a / b) in *. set (r := a mod b) in *.
  set (q' := a' / b') in *. set (r' := a' mod b') in *.
  assert (Hqa : b' * q <= a').
  { apply (Z.mul_le_mono_pos_r _ _ b); [lia|]. nia. }
  assert (Hq : q <= q') by (subst q'; apply Z.div_le_lower_bound; lia).
  destruct (Z.eq_dec q q') as [Heq|Hne].
  - subst q'. rewrite <- Heq in *.
    assert (Hfrac : r * b' <= r' * b) by nia.
    destruct (Z.compare_spec (2 * r) b) as [He|Hl|Hg];
      destruct (Z.compare_spec (2 * r') b') as [He'|Hl'|Hg'];
      try destruct (Z.even q); try lia; nia.
  - assert (q + 1 <= q') by lia.
    destruct (2 * r ?= b); destruct (2 * r' ?= b');
      try destruct (Z.even q); try destruct (Z.even q'); lia.
Qed.

Lemma py_int_mono x y : Qle 0 x → Qle x y → py_int x <= py_int y.
Proof.
  destruct x as [a b], y as [a' b']. unfold Qle, py_int. cbn [Qnum Qden].
  rewrite !Z.mul_1_r. cbn [Z.mul]. intros H0 Hle.
  rewrite !Z.quot_div_nonneg by nia.
  apply Z.div_le_lower_bound; [lia|].
  pose proof (Z.mul_div_le a (Z.pos b) ltac:(lia)). nia.
Qed.

(** The significand before rounding lies in [[2^52, 2^53)]. *)
Lemma ilog2_ratio_scaled n d :
  0 < n → 0 < d → ilog2_ratio n d < 52 →
  d * 2 ^ 52 <= n * 2 ^ (52 - ilog2_ratio n d) < d * 2 ^ 53.
Proof.
  intros Hn Hd. unfold ilog2_ratio.
  pose proof (Z.log2_spec n Hn) as [Hn1 Hn2].
  pose proof (Z.log2_spec d Hd) as [Hd1 Hd2].
  pose proof (Z.log2_nonneg n) as Hln. pose proof (Z.log2_nonneg d) as Hld.
  rewrite Z.pow_succ_r in Hn2, Hd2 by lia.
  set (ln := Z.log2 n) in *. set (ld := Z.log2 d) in *.
  assert (H53 : 2 ^ 53 = 2 * 2 ^ 52) by reflexivity.
  assert (Hpn : 0 < 2 ^ ln) by (apply Z.pow_pos_nonneg; lia).
  assert (Hpd : 0 < 2 ^ ld) by (apply Z.pow_pos_nonneg; lia).
  destruct (0 <=? ln - ld) eqn:Hk; [apply Z.leb_le in Hk | apply Z.leb_gt in Hk].
  - assert (Hsplit : 2 ^ ln = 2 ^ ld * 2 ^ (ln - ld)).
    { rewrite <- Z.pow_add_r by lia. f_equal. lia. }
    assert (HX : 0 < 2 ^ (ln - ld)) by (apply Z.pow_pos_nonneg; lia).
    destruct (d * 2 ^ (ln - ld) <=? n) eqn:Ht;
      [apply Z.leb_le in Ht | apply Z.leb_gt in Ht]; intros Hlt.
    + assert (HP : 2 ^ 52 = 2 ^ (ln - ld) * 2 ^ (52 - (ln - ld))).
      { rewrite <- Z.pow_add_r by lia. f_equal. lia. }
      assert (0 < 2 ^ (52 - (ln - ld))) by (apply Z.pow_pos_nonneg; lia).
      set (X := 2 ^ (ln - ld)) in *. set (P := 2 ^ (52 - (ln - ld))) in *.
      rewrite H53, HP. split; nia.
    + assert (HP : 2 ^ 53 = 2 ^ (ln - ld) * 2 ^ (52 - (ln - ld - 1))).
      { rewrite <- Z.pow_add_r by lia. f_equal. lia. }
      assert (0 < 2 ^ (52 - (ln - ld - 1))) by (apply Z.pow_pos_nonneg; lia).
      set (X := 2 ^ (ln - ld)) in *. set (P := 2 ^ (52 - (ln - ld - 1))) in *.
      split; [|rewrite HP; nia].
      assert (d * 2 ^ 53 < 2 * (n * P)) by (rewrite HP; nia). lia.
  - assert (Hsplit : 2 ^ ld = 2 ^ ln * 2 ^ (- (ln - ld))).
    { rewrite <- Z.pow_add_r by lia. f_equal. lia. }
    assert (HY : 0 < 2 ^ (- (ln - ld))) by (apply Z.pow_pos_nonneg; lia).
    destruct (d <=? n * 2 ^ (- (ln - ld))) eqn:Ht;
      [apply Z.leb_le in Ht | apply Z.leb_gt in Ht]; intros _.
    + assert (HP : 2 ^ (52 - (ln - ld)) = 2 ^ (- (ln - ld)) * 2 ^ 52).
      { rewrite <- Z.pow_add_r by lia. f_equal. lia. }
      set (Y := 2 ^ (- (ln - ld))) in *.
      rewrite HP, H53. split; nia.
    + assert (HP : 2 ^ (52 - (ln - ld - 1)) = 2 ^ (- (ln - ld)) * 2 ^ 53).
      { rewrite <- Z.pow_add_r by lia. f_equal. lia. }
      set (Y := 2 ^ (- (ln - ld))) in *.
      rewrite HP. split; [|nia]. rewrite H53. nia.
Qed.

Lemma ilog2_ratio_small n d I :
  0 < n → 0 < d → n <= I * d → I < 2 ^ 52 → ilog2_ratio n d < 52.
Proof.
  intros Hn Hd HnI HI.
  destruct (Z.lt_ge_cases (ilog2_ratio n d) 52) as [|Hge]; [done|].
  pose proof (ilog2_ratio_lower n d Hn Hd ltac:(lia)) as Hlow.
  assert (2 ^ 52 <= 2 ^ ilog2_ratio n d) by (apply Z.pow_le_mono_r; lia).
  nia.
Qed.

Lemma round_binary64_pos_small n d :
  ilog2_ratio n d < 52 →
  round_binary64_pos n d
  = Qmake (round_half_even (n * 2 ^ (52 - ilog2_ratio n d)) d)
      (Z.to_pos (2 ^ (52 - ilog2_ratio n d))).
Proof.
  intros Hk. unfold round_binary64_pos.
  replace (0 <=? ilog2_ratio n d - 52) with false by (symmetry; apply Z.leb_gt; lia).
  by replace (- (ilog2_ratio n d - 52)) with (52 - ilog2_ratio n d) by lia.
Qed.

(** Rounding to binary64 is monotone (below [2^52]). *)
Lemma round_binary64_pos_mono n d n' d' I :
  0 < n → 0 < d → 0 < n' → 0 < d' →
  n * d' <= n' * d → n' <= I * d' → I < 2 ^ 52 →
  Qle (round_binary64_pos n d) (round_binary64_pos n' d').
Proof.
  intros Hn Hd Hn' Hd' Hle HI' HI.
  assert (HnI : n <= I * d) by nia.
  pose proof (ilog2_ratio_small n d I Hn Hd HnI HI) as Hk.
  pose proof (ilog2_ratio_small n' d' I Hn' Hd' HI' HI) as Hk'.
  rewrite !round_binary64_pos_small by done.
  pose proof (ilog2_ratio_scaled n d Hn Hd Hk) as [Hlo Hhi].
  pose proof (ilog2_ratio_scaled n' d' Hn' Hd' Hk') as [Hlo' Hhi'].
  set (k := ilog2_ratio n d) in *. set (k' := ilog2_ratio n' d') in *.
  assert (HP : 0 < 2 ^ (52 - k)) by (apply Z.pow_pos_nonneg; lia).
  assert (HP' : 0 < 2 ^ (52 - k')) by (apply Z.pow_pos_nonneg; lia).
  unfold Qle. cbn [Qnum Qden]. rewrite !Z2Pos.id by done.
  assert (H53 : 2 ^ 53 = 2 * 2 ^ 52) by reflexivity.
  assert (H52 : 0 < 2 ^ 52) by reflexivity.
  destruct (Z.lt_trichotomy k k') as [Hlt|[Heq|Hgt]].
  - assert (Hsplit : 2 ^ (52 - k) = 2 ^ (52 - k') * 2 ^ (k' - k)).
    { rewrite <- Z.pow_add_r by lia. f_equal. lia. }
    assert (HD : 2 ^ 1 <= 2 ^ (k' - k)) by (apply Z.pow_le_mono_r; lia).
    change (2 ^ 1) with 2 in HD.
    assert (Hm : round_half_even (n * 2 ^ (52 - k)) d <= 2 ^ 53)
      by (apply round_half_even_le; lia).
    assert (Hm' : 2 ^ 52 <= round_half_even (n' * 2 ^ (52 - k')) d').
    { etransitivity; [|apply round_half_even_ge; lia].
      apply Z.div_le_lower_bound; lia. }
    set (m := round_half_even _ d) in *. set (m' := round_half_even _ d') in *.
    set (P := 2 ^ (52 - k)) in *. set (P' := 2 ^ (52 - k')) in *.
    set (D := 2 ^ (k' - k)) in *. rewrite Hsplit. nia.
  - rewrite <- Heq in *.
    apply Z.mul_le_mono_nonneg_r; [lia|].
    apply round_half_even_mono; try lia. nia.
  - exfalso.
    assert (Hsplit : 2 ^ (52 - k') = 2 ^ (52 - k) * 2 ^ (k - k')).
    { rewrite <- Z.pow_add_r by lia. f_equal. lia. }
    assert (HD : 2 ^ 1 <= 2 ^ (k - k')) by (apply Z.pow_le_mono_r; lia).
    change (2 ^ 1) with 2 in HD.
    set (P := 2 ^ (52 - k)) in *. set (D := 2 ^ (k - k')) in *.
    rewrite Hsplit in Hhi'. clear Hlo' HP' Hsplit.
    assert (H1 : d * d' * 2 ^ 52 <= n' * P * d) by nia.
    assert (H2 : n' * P * D * d < d * d' * 2 ^ 53) by nia.
    nia.
Qed.

Lemma py_float_mul_pos q n :
  0 < Qnum q → 0 < n →
  py_float_mul q n = round_binary64_pos (Qnum q * n) (Z.pos (Qden q)).
Proof.
  intros Hq Hn. destruct q as [m P]. cbn [Qnum Qden] in *.
  unfold py_float_mul, round_binary64. cbn [Qmult inject_Z Qnum Qden].
  rewrite Pos.mul_1_r. destruct (m * n) as [|x|x] eqn:Hm; [nia|reflexivity|nia].
Qed.

Lemma true_div_pos a p :
  round_binary64 (Qdiv (inject_Z (Z.pos a)) (inject_Z (Z.pos p)))
  = round_binary64_pos (Z.pos a) (Z.pos p).
Proof. unfold round_binary64. cbn. by rewrite Z.mul_1_r, Pos.mul_1_l. Qed.

(** The percentage grows with the index. *)
Lemma progress_percent_mono i i' total :
  0 <= i <= i' → i' < total →
  progress_percent i total <= progress_percent i' total.
Proof.
  intros Hi Hi'. unfold progress_percent.
  destruct total as [|p|p]; try lia.
  destruct (i + 1) as [|a|a] eqn:Ha; try lia.
  destruct (i' + 1) as [|a'|a'] eqn:Ha'; try lia.
  rewrite !true_div_pos.
  pose proof (round_binary64_pos_positive (Z.pos a) (Z.pos p) ltac:(lia) ltac:(lia)) as Hq.
  pose proof (round_binary64_pos_positive (Z.pos a') (Z.pos p) ltac:(lia) ltac:(lia)) as Hq'.
  assert (Hle : Qle (round_binary64_pos (Z.pos a) (Z.pos p))
                    (round_binary64_pos (Z.pos a') (Z.pos p))).
  { apply (round_binary64_pos_mono _ _ _ _ 1); first [lia | reflexivity | nia]. }
  assert (Hone : Qle (round_binary64_pos (Z.pos a') (Z.pos p)) (inject_Z 1)).
  { apply round_binary64_pos_le; first [lia | reflexivity]. }
  rewrite !py_float_mul_pos by lia.
  destruct (round_binary64_pos (Z.pos a) (Z.pos p)) as [m P].
  destruct (round_binary64_pos (Z.pos a') (Z.pos p)) as [m' P'].
  unfold Qle in Hle, Hone. cbn [Qnum Qden inject_Z] in *.
  apply py_int_mono.
  - apply round_binary64_pos_ge0; lia.
  - apply (round_binary64_pos_mono _ _ _ _ 100); first [lia | reflexivity | nia].
Qed.

(** X25.  The progress signals of a session without interrupt never go
    back: a later signal carries a percentage at least as large as an
    earlier one. *)
Theorem progress_never_goes_back E path txt wpm fs0 k :
  interrupt_at E = None →
  0 < wpm →
  stored_progress fs0 path k →
  0 <= k →
  ∃ st',
    session E path txt (PInt wpm) fs0 = (st', Ok tt)
    ∧ ∀ (a b : nat) p p',
        (a <= b)%nat →
        progress_signals (effects st') !! a = Some p →
        progress_signals (effects st') !! b = Some p' →
        p <= p'.
Proof.
  intros Hi Hw Hk H0.
  destruct (session_runs E path txt wpm fs0 k Hi Hw Hk H0) as (st' & Hrun & Hev & _).
  exists st'. split; [exact Hrun|]. rewrite Hev, progress_signals_loop.
  set (c := iterations_done E 0 (Z.to_nat (len (split txt) - k))).
  assert (Hc : (c <= Z.to_nat (len (split txt) - k))%nat).
  { subst c. unfold iterations_done. destruct (stop_after E); lia. }
  intros a b p p' Hab Ha Hb.
  rewrite list_lookup_fmap in Ha, Hb.
  destruct (seqZ k (Z.of_nat c) !! a) as [ia|] eqn:Hia; [|done].
  destruct (seqZ k (Z.of_nat c) !! b) as [ib|] eqn:Hib; [|done].
  apply lookup_seqZ in Hia as [-> Hia]. apply lookup_seqZ in Hib as [-> Hib].
  cbn in Ha, Hb. injection Ha as <-. injection Hb as <-.
  apply progress_percent_mono; lia.
Qed.

Lemma progress_never_goes_back_witness :
  ∃ st',
    session undisturbed "book" "one two three" (PInt 300) (fs_book 0) = (st', Ok tt)
    ∧ ∀ (a b : nat) p p',
        (a <= b)%nat →
        progress_signals (effects st') !! a = Some p →
        progress_signals (effects st') !! b = Some p' →
        p <= p'.
Proof.
  apply (progress_never_goes_back undisturbed "book" "one two three" 300 (fs_book 0) 0).
  - reflexivity.
  - lia.
  - exists {[ "book" := PInt 0 ]}. split; reflexivity.
  - lia.
Defined.

(** ** Stores a session cannot use *)

(** X26.  When the progress path cannot be opened (a directory, no
    permission), reading it counts as no progress but the first checkpoint
    fails: a session shows exactly the first word, sleeps, and then
    [save_progress] raises [IOError] out of [run]. *)
Theorem unopenable_store_stops_after_one_word path txt wpm fs0 :
  fs0 !! PROGRESS_JSON = Some Unopenable →
  0 < wpm →
  split txt ≠ [] →
  ∃ st',
    session undisturbed path txt (PInt wpm) fs0 = (st', Raise IOError)
    ∧ word_signals (effects st') = take 1 (split txt)
    ∧ saved_indices path (effects st') = []
    ∧ fs st' = fs0.
Proof.
  intros Hfs Hw Hne.
  destruct (split txt) as [|w rest] eqn:HT; [done|].
  destruct (delay_of_positive_rate wpm Hw) as (delay & Hdelay & Hd).
  assert (Hload : load_progress fs0 path = Ok (PInt 0)) by (apply load_progress_swallowed; auto).
  assert (Hsave : ∀ v, save_progress path v fs0 = Raise IOError).
  { intros v. unfold save_progress, load_all_progress, os_path_exists, open_r_json_load.
    rewrite Hfs. cbn. by rewrite Hfs. }
  unfold session, run.
  unfold mbind at 1, M_bind at 1, get_self at 1.
  cbn [self file_path text words_per_minute WordDisplayThread_init].
  unfold mbind at 1, M_bind at 1, load_progress_M at 1. cbn [fs].
  rewrite Hload, HT.
  unfold mbind at 1, M_bind at 1, lift at 1. rewrite Hdelay.
  unfold try_except_M.
  unfold mbind at 1, M_bind at 1, lift at 1. cbn [py_range].
  replace (len (w :: rest) - 0) with (Z.of_nat (S (length rest))) by (unfold len; cbn; lia).
  rewrite seqZ_succ. cbn [for_loop].
  rewrite (gui_thread_idle undisturbed 0) by done.
  rewrite !(deliver_none undisturbed) by done.
  unfold mbind, M_bind, mret, M_ret, get_self, update_self, lift, emit.
  cbn. unfold time_sleep. rewrite Hd. unfold emit. cbn.
  unfold save_progress_M. cbn. rewrite Hsave.
  eexists. split; [reflexivity|]. by repeat split.
Qed.

Lemma unopenable_store_stops_after_one_word_witness :
  ∃ st',
    session undisturbed "book" "alpha beta" (PInt 300) {[ PROGRESS_JSON := Unopenable ]}
    = (st', Raise IOError)
    ∧ word_signals (effects st') = take 1 (split "alpha beta")
    ∧ saved_indices "book" (effects st') = []
    ∧ fs st' = {[ PROGRESS_JSON := Unopenable ]}.
Proof.
  apply (unopenable_store_stops_after_one_word "book" "alpha beta" 300
           {[ PROGRESS_JSON := Unopenable ]}).
  - reflexivity.
  - lia.
  - discriminate.
Defined.

(** X27.  A stored value that is not an integer (a string, a float, null,
    a list, an object) makes [run] raise [TypeError] in the header of its
    loop, before it emits anything and without a write. *)
Theorem non_integer_progress_raises E path txt wpm fs0 tbl v :
  table_of fs0 tbl →
  tbl !! path = Some v →
  (∀ z, v ≠ PInt z) → (∀ b, v ≠ PBool b) →
  wpm ≠ 0 →
  session E path txt (PInt wpm) fs0
  = (start_state path txt (PInt wpm) fs0, Raise TypeError).
Proof.
  intros Ht Hv Hint Hbool Hw.
  unfold session, run.
  unfold mbind at 1, M_bind at 1, get_self at 1.
  cbn [self file_path text words_per_minute WordDisplayThread_init].
  unfold mbind at 1, M_bind at 1, load_progress_M at 1. cbn [fs].
  rewrite (load_progress_table _ _ _ Ht), Hv. cbn [from_option id].
  unfold mbind at 1, M_bind at 1, lift at 1.
  unfold py_true_div_val, py_true_div.
  replace (wpm =? 0) with false by (symmetry; by apply Z.eqb_neq).
  unfold try_except_M.
  unfold mbind at 1, M_bind at 1, lift at 1.
  destruct v; try reflexivity; [by destruct (Hbool b) | by destruct (Hint z)].
Qed.

Lemma non_integer_progress_raises_witness :
  session undisturbed "book" "alpha beta" (PInt 300)
    {[ PROGRESS_JSON := JsonText (PDict {[ "book" := PStr "2" ]}) ]}
  = (start_state "book" "alpha beta" (PInt 300)
       {[ PROGRESS_JSON := JsonText (PDict {[ "book" := PStr "2" ]}) ]},
     Raise TypeError).
Proof.
  apply (non_integer_progress_raises undisturbed "book" "alpha beta" 300
           {[ PROGRESS_JSON := JsonText (PDict {[ "book" := PStr "2" ]}) ]}
           {[ "book" := PStr "2" ]} (PStr "2")).
  - reflexivity.
  - reflexivity.
  - discriminate.
  - discriminate.
  - lia.
Defined.
